(** * peeps-ember-orbit: the [orbitConfiguration] service and the contact model

    A shallow embedding of the [orbitConfiguration] Ember service (its
    [init] / [initialize] / [configure] / [clearActiveConfiguration] methods
    and the strategies they install) and of the [fullName] computed property
    of the contact model.

    The coordinator, sources and strategies belong to the Orbit library.  The
    service only calls into them, so every such call is an [Op] recorded, in
    call order, in the trace of the [World].  A call can succeed or fail
    (reject or throw); the outcome is decided by an oracle [ok], and a failing
    call aborts the rest of the promise chain, as a rejected promise does. *)

From Stdlib Require Import String Ascii List Bool ZArith Lia.
Import ListNotations.
Open Scope string_scope.

(** ** Sources, buckets and strategies *)

Inductive SourceClass :=
| MemorySource          (* the ember-orbit store *)
| JSONAPISource
| IndexedDBSource
| LocalStorageSource.

Inductive BucketClass := IndexedDBBucket | LocalStorageBucket.

Record Bucket := { bucket_class : BucketClass; bucket_namespace : string }.

Record Source := {
  src_name : string;
  src_class : SourceClass;
  src_namespace : option string;
  src_bucket : option Bucket }.

(** The [catch(e)] handler of the pull and the pessimistic push strategies:
    log, [this.source.requestQueue.skip()], [this.target.requestQueue.skip()],
    [throw e]. *)
Inductive CatchHandler := SkipQueuesAndRethrow.

(** The [action] of a request strategy: a named action of the target, or the
    [pushFail] closure of the optimistic configuration. *)
Inductive RequestAction := ActPull | ActPush | ActOnPushFail.

Record RequestOptions := {
  ro_source : string;
  ro_on : string;
  ro_target : option string;
  ro_action : RequestAction;
  ro_blocking : bool;
  ro_catch : option CatchHandler }.

Inductive Strategy :=
| EventLoggingStrategy
| LogTruncationStrategy
| SyncStrategy (source target : string) (blocking : bool)
| RequestStrategy (o : RequestOptions).

Definition action_name (a : RequestAction) : string :=
  match a with ActPull => "pull" | ActPush => "push" | ActOnPushFail => "action" end.

(** Names under which the coordinator registers a strategy. *)
Definition strategy_name (s : Strategy) : string :=
  match s with
  | EventLoggingStrategy => "event-logging"
  | LogTruncationStrategy => "log-truncation"
  | SyncStrategy src tgt _ => "sync:" ++ src ++ ":" ++ tgt
  | RequestStrategy o =>
      ro_source o ++ ":" ++ ro_on o ++ " -> "
        ++ match ro_target o with Some t => t | None => "" end
        ++ ":" ++ action_name (ro_action o)
  end.

(** ** Calls into the library *)

Inductive Op :=
| Deactivate
| Activate
| ResetSource (name : string)          (* backup.reset() *)
| RemoveStrategy (name : string)
| ClearTransformLog (name : string)
| ClearRequestQueue (name : string)
| ClearSyncQueue (name : string)
| ResetCache (name : string)           (* source.cache.reset() *)
| RemoveSource (name : string)
| SetItem (key value : string)         (* window.localStorage.setItem *)
| SetFetch                             (* Orbit.fetch = fetch *)
| AddStrategy (s : Strategy)
| AddSource (s : Source)
| PullAllRecords (name : string)       (* backup.pull(oqb.records()) *)
| SyncStore.                           (* store.sync(transform) *)

(** The environment the service acts on: the coordinator and the browser's
    local storage. *)
Record Env := {
  e_activated : bool;
  e_sources : list Source;
  e_strategies : list Strategy;
  e_storage : string -> option string }.

Definition set_activated (b : bool) (e : Env) : Env :=
  {| e_activated := b; e_sources := e_sources e;
     e_strategies := e_strategies e; e_storage := e_storage e |}.
Definition set_sources (l : list Source) (e : Env) : Env :=
  {| e_activated := e_activated e; e_sources := l;
     e_strategies := e_strategies e; e_storage := e_storage e |}.
Definition set_strategies (l : list Strategy) (e : Env) : Env :=
  {| e_activated := e_activated e; e_sources := e_sources e;
     e_strategies := l; e_storage := e_storage e |}.
Definition set_storage (k v : string) (e : Env) : Env :=
  {| e_activated := e_activated e; e_sources := e_sources e;
     e_strategies := e_strategies e;
     e_storage := fun k' => if String.eqb k' k then Some v else e_storage e k' |}.

(** What a successful call does to the environment. *)
Definition apply_op (op : Op) (e : Env) : Env :=
  match op with
  | Deactivate => set_activated false e
  | Activate => set_activated true e
  | RemoveStrategy n =>
      set_strategies (filter (fun s => negb (String.eqb (strategy_name s) n))
                        (e_strategies e)) e
  | RemoveSource n =>
      set_sources (filter (fun s => negb (String.eqb (src_name s) n))
                     (e_sources e)) e
  | AddStrategy s => set_strategies (e_strategies e ++ [s]) e
  | AddSource s => set_sources (e_sources e ++ [s]) e
  | SetItem k v => set_storage k v e
  | _ => e
  end.

Definition apply_ops (ops : list Op) (e : Env) : Env :=
  fold_left (fun e op => apply_op op e) ops e.

(** The service ([mode], [bucket]) together with its environment and the
    trace of the calls made so far. *)
Record World := {
  w_mode : option string;
  w_bucket : Bucket;
  w_env : Env;
  w_trace : list Op }.

Definition with_env (e : Env) (t : list Op) (w : World) : World :=
  {| w_mode := w_mode w; w_bucket := w_bucket w; w_env := e; w_trace := t |}.

(** ** The promise chain as a state and failure monad *)

Definition M (A : Type) := World -> option A * World.

Definition ret {A} (a : A) : M A := fun w => (Some a, w).

Definition bind {A B} (c : M A) (f : A -> M B) : M B :=
  fun w => match c w with
           | (Some a, w') => f a w'
           | (None, w') => (None, w')
           end.

Notation "x <- c ;; k" := (bind c (fun x => k))
  (at level 61, c at next level, right associativity).
Notation "c ;;; k" := (bind c (fun _ => k))
  (at level 61, right associativity).

Fixpoint for_each {A} (f : A -> M unit) (l : list A) : M unit :=
  match l with
  | [] => ret tt
  | x :: r => f x ;;; for_each f r
  end.

Definition get_bucket : M Bucket := fun w => (Some (w_bucket w), w).
Definition get_env : M Env := fun w => (Some (w_env w), w).
Definition set_mode (m : string) : M unit :=
  fun w => (Some tt, {| w_mode := Some m; w_bucket := w_bucket w;
                        w_env := w_env w; w_trace := w_trace w |}).

(** [Orbit.fetch = fetch]: an assignment, it cannot fail. *)
Definition assign_fetch : M unit :=
  fun w => (Some tt, with_env (w_env w) (w_trace w ++ [SetFetch]) w).

Definition get_source (name : string) (e : Env) : option Source :=
  find (fun s => String.eqb (src_name s) name) (e_sources e).

Section Service.

(** Outcome of the [n]-th call of the trace. *)
Variable ok : nat -> Op -> bool.
(** The [supportsIndexedDB] flag exported by [@orbit/indexeddb]. *)
Variable supportsIndexedDB : bool.

Definition call (op : Op) : M unit :=
  fun w =>
    if ok (length (w_trace w)) op
    then (Some tt, with_env (apply_op op (w_env w)) (w_trace w ++ [op]) w)
    else (None, with_env (w_env w) (w_trace w ++ [op]) w).

(** [clearActiveConfiguration()] *)
Definition clearActiveConfiguration : M unit :=
  e <- get_env ;;
  if e_activated e then
    call Deactivate ;;;
    e1 <- get_env ;;
    (match get_source "backup" e1 with
     | Some backup => call (ResetSource (src_name backup))
     | None => ret tt
     end) ;;;
    e2 <- get_env ;;
    for_each (fun name => call (RemoveStrategy name))
      (map strategy_name (e_strategies e2)) ;;;
    e3 <- get_env ;;
    for_each (fun source =>
        call (ClearTransformLog (src_name source)) ;;;
        call (ClearRequestQueue (src_name source)) ;;;
        call (ClearSyncQueue (src_name source)) ;;;
        if String.eqb (src_name source) "store"
        then call (ResetCache (src_name source))
        else call (RemoveSource (src_name source)))
      (e_sources e3)
  else ret tt.

Definition remote_source (bucket : Bucket) : Source :=
  {| src_name := "remote"; src_class := JSONAPISource;
     src_namespace := None; src_bucket := Some bucket |}.

Definition BackupClass : SourceClass :=
  if supportsIndexedDB then IndexedDBSource else LocalStorageSource.

Definition backup_source (bucket : Bucket) : Source :=
  {| src_name := "backup"; src_class := BackupClass;
     src_namespace := Some "peeps"; src_bucket := Some bucket |}.

Definition pull_strategy (pessimisticMode : bool) : Strategy :=
  RequestStrategy {| ro_source := "store"; ro_on := "beforeQuery";
                     ro_target := Some "remote"; ro_action := ActPull;
                     ro_blocking := pessimisticMode;
                     ro_catch := Some SkipQueuesAndRethrow |}.

Definition pessimistic_push_strategy : Strategy :=
  RequestStrategy {| ro_source := "store"; ro_on := "beforeUpdate";
                     ro_target := Some "remote"; ro_action := ActPush;
                     ro_blocking := true;
                     ro_catch := Some SkipQueuesAndRethrow |}.

Definition optimistic_push_strategy : Strategy :=
  RequestStrategy {| ro_source := "store"; ro_on := "beforeUpdate";
                     ro_target := Some "remote"; ro_action := ActPush;
                     ro_blocking := false; ro_catch := None |}.

Definition push_fail_strategy : Strategy :=
  RequestStrategy {| ro_source := "remote"; ro_on := "pushFail";
                     ro_target := None; ro_action := ActOnPushFail;
                     ro_blocking := true; ro_catch := None |}.

(** The body of the [.then] that follows [clearActiveConfiguration()]. *)
Definition configure_body (mode : string) : M unit :=
  set_mode mode ;;;
  call (SetItem "peeps-mode" mode) ;;;
  let pessimisticMode := String.eqb mode "pessimistic-server" in
  call (AddStrategy EventLoggingStrategy) ;;;
  call (AddStrategy LogTruncationStrategy) ;;;
  bucket <- get_bucket ;;
  (if String.eqb mode "pessimistic-server"
      || String.eqb mode "optimistic-server" then
     assign_fetch ;;;
     call (AddSource (remote_source bucket)) ;;;
     call (AddStrategy (SyncStrategy "remote" "store" pessimisticMode)) ;;;
     call (AddStrategy (pull_strategy pessimisticMode)) ;;;
     if pessimisticMode then
       call (AddStrategy pessimistic_push_strategy)
     else
       call (AddStrategy optimistic_push_strategy) ;;;
       call (AddStrategy push_fail_strategy)
   else ret tt) ;;;
  if String.eqb mode "offline-only" || String.eqb mode "optimistic-server" then
    call (AddSource (backup_source bucket)) ;;;
    call (AddStrategy (SyncStrategy "store" "backup" true)) ;;;
    call Activate ;;;
    call (PullAllRecords "backup") ;;;
    call SyncStore ;;;
    call (ClearTransformLog "backup") ;;;
    call (ClearTransformLog "store") ;;;
    call Activate
  else
    call Activate.

(** What [configure] returns: [undefined], or a promise that resolves
    ([Some tt]) or rejects ([None]). *)
Inductive Returned := Undefined | Promise (r : option unit).

(** [configure(mode)] *)
Definition configure (mode : string) (w : World) : Returned * World :=
  match w_mode w with
  | Some cur => if String.eqb mode cur then (Undefined, w)
                else let (r, w') := (clearActiveConfiguration ;;; configure_body mode) w
                     in (Promise r, w')
  | None => let (r, w') := (clearActiveConfiguration ;;; configure_body mode) w
            in (Promise r, w')
  end.

(** [window.localStorage.getItem('peeps-mode') || 'offline-only'] *)
Definition stored_mode (e : Env) : string :=
  match e_storage e "peeps-mode" with
  | Some s => if String.eqb s "" then "offline-only" else s
  | None => "offline-only"
  end.

(** [initialize()] *)
Definition initialize (w : World) : Returned * World :=
  configure (stored_mode (w_env w)) w.

End Service.

(** ** A fresh session *)

Definition store_source : Source :=
  {| src_name := "store"; src_class := MemorySource;
     src_namespace := None; src_bucket := None |}.

(** The coordinator as ember-orbit hands it to the service: the store is
    its only source, no strategy, not activated. *)
Definition fresh_env (storage : string -> option string) : Env :=
  {| e_activated := false; e_sources := [store_source];
     e_strategies := []; e_storage := storage |}.

(** [init()]: the settings bucket. *)
Definition init_bucket (supportsIndexedDB : bool) : Bucket :=
  {| bucket_class := if supportsIndexedDB then IndexedDBBucket else LocalStorageBucket;
     bucket_namespace := "peeps-settings" |}.

Definition init (supportsIndexedDB : bool) (storage : string -> option string) : World :=
  {| w_mode := None; w_bucket := init_bucket supportsIndexedDB;
     w_env := fresh_env storage; w_trace := [] |}.

(** [availableModes] *)
Record ModeEntry := { mode_id : string; mode_description : string }.

Definition availableModes : list ModeEntry :=
  [ {| mode_id := "memory-only"; mode_description := "store" |};
    {| mode_id := "offline-only"; mode_description := "store + backup" |};
    {| mode_id := "pessimistic-server"; mode_description := "store + remote" |};
    {| mode_id := "optimistic-server"; mode_description := "store + remote + backup" |} ].

Definition all_ok : nat -> Op -> bool := fun _ _ => true.

(** ** Failure handling of the installed strategies *)

(** [e instanceof NetworkError], or any other error ([ClientError],
    [ServerError], ...). *)
Inductive ErrorClass := NetworkError | OtherError.

Record TransformOptions := { label : option string }.

Record Transform := { t_id : string; t_options : option TransformOptions }.

(** What a handler does, in order. *)
Inductive Effect :=
| Alert (msg : string)
| Rollback (transform_id : string) (relative_position : Z)  (* store.rollback *)
| SkipRequestQueue (source : string)                        (* requestQueue.skip() *)
| SetTimeout (retry_source : string) (delay_ms : nat)       (* setTimeout(() => requestQueue.retry()) *)
| Rethrow.                                                  (* throw e *)

Definition quote : string := String (ascii_of_nat 34) EmptyString.

(** [transform.options && transform.options.label], read as a truthy value. *)
Definition transform_label (t : Transform) : option string :=
  match t_options t with
  | Some o => match label o with
              | Some l => if String.eqb l "" then None else Some l
              | None => None
              end
  | None => None
  end.

Definition alert_message (t : Transform) : string :=
  match transform_label t with
  | Some l => "Unable to complete " ++ quote ++ l ++ quote
  | None => "Unable to complete operation"
  end.

(** The [action(transform, e)] of the [pushFail] strategy; [contains] is
    [store.transformLog.contains]. *)
Definition on_push_fail (contains : string -> bool) (t : Transform) (e : ErrorClass)
  : list Effect :=
  match e with
  | NetworkError => [SetTimeout "remote" 5000]
  | OtherError =>
      [Alert (alert_message t)]
      ++ (if contains (t_id t) then [Rollback (t_id t) (-1)] else [])
      ++ [SkipRequestQueue "remote"]
  end.

Definition run_catch (o : RequestOptions) (c : CatchHandler) : list Effect :=
  match c with
  | SkipQueuesAndRethrow =>
      [SkipRequestQueue (ro_source o);
       SkipRequestQueue (match ro_target o with Some t => t | None => "" end);
       Rethrow]
  end.

Definition run_listener_action (a : RequestAction) (contains : string -> bool)
  (t : Transform) (e : ErrorClass) : list Effect :=
  match a with
  | ActOnPushFail => on_push_fail contains t e
  | _ => []
  end.

Definition request_action_eqb (a b : RequestAction) : bool :=
  match a, b with
  | ActPull, ActPull | ActPush, ActPush | ActOnPushFail, ActOnPushFail => true
  | _, _ => false
  end.

(** How the coordinator reacts when a [pull] or [push] of the remote source
    fails: the request strategy that forwarded the request to the remote runs
    its [catch] handler, and the strategies listening on the remote's
    [pullFail] / [pushFail] event run their action. *)
Definition strategy_on_failure (contains : string -> bool) (a : RequestAction)
  (t : Transform) (e : ErrorClass) (s : Strategy) : list Effect :=
  match s with
  | RequestStrategy o =>
      (if String.eqb (ro_source o) "store"
          && match ro_target o with Some tg => String.eqb tg "remote" | None => false end
          && request_action_eqb (ro_action o) a
       then match ro_catch o with Some c => run_catch o c | None => [] end
       else [])
      ++ (if String.eqb (ro_source o) "remote"
             && String.eqb (ro_on o) (action_name a ++ "Fail")
          then run_listener_action (ro_action o) contains t e
          else [])
  | _ => []
  end.

Definition remote_failure_effects (strategies : list Strategy)
  (contains : string -> bool) (a : RequestAction) (t : Transform) (e : ErrorClass)
  : list Effect :=
  flat_map (strategy_on_failure contains a t e) strategies.

(** ** The contact model *)

Record Contact := {
  firstName : option string;
  lastName : option string;
  email : option string;
  twitter : option string;
  phoneNumbers : list string }.

(** JavaScript truthiness of a string attribute ([undefined] or a string). *)
Definition truthy (v : option string) : bool :=
  match v with Some s => negb (String.eqb s "") | None => false end.

(** [String(v)]; [undefined] only reaches it when it is falsy, never here. *)
Definition js_string (v : option string) : string :=
  match v with Some s => s | None => "undefined" end.

(** The [fullName] computed property. *)
Definition fullName (c : Contact) : string :=
  let firstName := firstName c in
  let lastName := lastName c in
  if truthy firstName && truthy lastName then js_string firstName ++ " " ++ js_string lastName
  else if truthy firstName then js_string firstName
  else if truthy lastName then js_string lastName
  else "(No name)".

(** Sessions used as concrete inputs: a fresh service configured once. *)
Definition session_after (mode : string) : World :=
  snd (configure all_ok true mode (init true (fun _ => None))).

Definition sample_transform : Transform :=
  {| t_id := "t-update"; t_options := Some {| label := Some "Update contact" |} |}.

Definition ada : Contact :=
  {| firstName := Some "Ada"; lastName := Some "Lovelace"; email := None;
     twitter := None; phoneNumbers := [] |}.

(** ** Modes and their descriptions *)

(** Splits an [availableModes] description at its [" + "] separators. *)
Fixpoint split_plus_acc (s acc : string) : list string :=
  match s with
  | String " "%char (String "+"%char (String " "%char rest)) =>
      acc :: split_plus_acc rest ""
  | String c rest => split_plus_acc rest (acc ++ String c EmptyString)
  | EmptyString => [acc]
  end.

Definition split_plus (s : string) : list string := split_plus_acc s "".

(** ** The calls a computation makes *)

Open Scope list_scope.

Definition prefix {A} (t s : list A) : Prop := exists u, s = (t ++ u)%list.

(** The calls made by the cleanup of [clearActiveConfiguration] for one
    source of the coordinator. *)
Definition source_cleanup (s : Source) : list Op :=
  [ClearTransformLog (src_name s); ClearRequestQueue (src_name s);
   ClearSyncQueue (src_name s);
   if String.eqb (src_name s) "store" then ResetCache (src_name s)
   else RemoveSource (src_name s)].

(** The calls [clearActiveConfiguration()] makes on a coordinator in state
    [e], in order. *)
Definition clear_script (e : Env) : list Op :=
  if e_activated e then
    [Deactivate]
    ++ match get_source "backup" e with
       | Some b => [ResetSource (src_name b)]
       | None => []
       end
    ++ flat_map (fun n => [RemoveStrategy n]) (map strategy_name (e_strategies e))
    ++ flat_map source_cleanup (e_sources e)
  else [].

Definition server_mode (mode : string) : bool :=
  String.eqb mode "pessimistic-server" || String.eqb mode "optimistic-server".

Definition backup_mode (mode : string) : bool :=
  String.eqb mode "offline-only" || String.eqb mode "optimistic-server".

Definition is_add (op : Op) : bool :=
  match op with AddStrategy _ | AddSource _ => true | _ => false end.

(** The sources a list of calls adds, in order. *)
Definition added_sources (ops : list Op) : list Source :=
  flat_map (fun op => match op with AddSource s => [s] | _ => [] end) ops.

(** The strategies a list of calls adds, in order. *)
Definition added_strategies (ops : list Op) : list Strategy :=
  flat_map (fun op => match op with AddStrategy s => [s] | _ => [] end) ops.

(** A coordinator whose sources named ["store"] are exactly one, and which
    either is activated (so the cleanup runs) or has no other source. *)
Definition store_only_after_cleanup (e : Env) : Prop :=
  map src_name (filter (fun s => String.eqb (src_name s) "store") (e_sources e)) = ["store"]
  /\ (e_activated e = true \/ map src_name (e_sources e) = ["store"]).

(** A session: [configure] called with each mode of [ms] in turn, every
    call into the library succeeding. *)
Definition run_modes (sIDB : bool) (ms : list string) (w : World) : World :=
  fold_left (fun w m => snd (configure all_ok sIDB m w)) ms w.

(** [c] leaves the service's [mode] field as it found it. *)
Definition keeps_mode {A} (c : M A) : Prop :=
  forall w, w_mode (snd (c w)) = w_mode w.

(** A value of [present]: a non-empty string; [text] reads an attribute. *)
Definition present (v : option string) : Prop :=
  match v with Some s => s <> "" | None => False end.

Definition text (v : option string) : string :=
  match v with Some s => s | None => "" end.

Section Scripts.

Variable ok : nat -> Op -> bool.
Variable supportsIndexedDB : bool.

(** The calls the body of [configure(mode)] makes, in order. *)
Definition build_adds (mode : string) (bucket : Bucket) : list Op :=
  [AddStrategy EventLoggingStrategy; AddStrategy LogTruncationStrategy]
  ++ (if server_mode mode then
        [SetFetch; AddSource (remote_source bucket);
         AddStrategy (SyncStrategy "remote" "store" (String.eqb mode "pessimistic-server"));
         AddStrategy (pull_strategy (String.eqb mode "pessimistic-server"))]
        ++ (if String.eqb mode "pessimistic-server"
            then [AddStrategy pessimistic_push_strategy]
            else [AddStrategy optimistic_push_strategy; AddStrategy push_fail_strategy])
      else [])
  ++ (if backup_mode mode then
        [AddSource (backup_source supportsIndexedDB bucket);
         AddStrategy (SyncStrategy "store" "backup" true)]
      else []).

Definition activation_tail (mode : string) : list Op :=
  if backup_mode mode then
    [Activate; PullAllRecords "backup"; SyncStore;
     ClearTransformLog "backup"; ClearTransformLog "store"; Activate]
  else [Activate].

Definition build_script (mode : string) (bucket : Bucket) : list Op :=
  SetItem "peeps-mode" mode :: build_adds mode bucket ++ activation_tail mode.

(** The state of a session of a service created by [init]: nothing
    configured yet, or exactly the sources and strategies the build of its
    current mode adds, activated, with the mode stored. *)
Definition session_inv (w : World) : Prop :=
  w_bucket w = init_bucket supportsIndexedDB /\
  match w_mode w with
  | None => e_sources (w_env w) = [store_source] /\ e_strategies (w_env w) = [] /\
            e_activated (w_env w) = false
  | Some m =>
      e_sources (w_env w)
      = store_source :: added_sources (build_script m (init_bucket supportsIndexedDB)) /\
      e_strategies (w_env w)
      = added_strategies (build_script m (init_bucket supportsIndexedDB)) /\
      e_activated (w_env w) = true /\
      e_storage (w_env w) "peeps-mode" = Some m
  end.

(** [c], run on [w], makes a prefix of the calls [s]; all of them when it
    succeeds, and then the environment is the one the calls produce; it
    succeeds when every call does. *)
Definition runs {A} (c : M A) (w : World) (s : list Op) : Prop :=
  let (r, w') := c w in
  (exists t, w_trace w' = w_trace w ++ t /\ prefix t s) /\
  w_bucket w' = w_bucket w /\
  (r <> None -> w_trace w' = w_trace w ++ s /\ w_env w' = apply_ops s (w_env w)) /\
  ((forall n op, ok n op = true) -> r <> None).

Lemma runs_bind {A B} (c : M A) (f : A -> M B) w s1 s2 :
  runs c w s1 ->
  (forall a w1, c w = (Some a, w1) -> runs (f a) w1 s2) ->
  runs (bind c f) w (s1 ++ s2).
Proof.
  unfold runs, bind. destruct (c w) as [[a|] w1] eqn:E; intros H1 H2.
  - specialize (H2 a w1 eq_refl). destruct (f a w1) as [r2 w2].
    destruct H1 as [_ [Hb1 [Hs1 _]]].
    destruct (Hs1 ltac:(discriminate)) as [Ht1 He1].
    destruct H2 as [[t2 [Ht2 [u Hu]]] [Hb2 [Hs2 Ha2]]].
    split; [| split; [| split]].
    + exists (s1 ++ t2). rewrite Ht2, Ht1, app_assoc. split; [reflexivity|].
      exists u. rewrite Hu, app_assoc. reflexivity.
    + congruence.
    + intro Hr. destruct (Hs2 Hr) as [X Y]. rewrite X, Y, Ht1, He1, app_assoc.
      unfold apply_ops. rewrite fold_left_app. split; reflexivity.
    + exact Ha2.
  - destruct H1 as [[t1 [Ht1 [u Hu]]] [Hb1 [_ Ha1]]].
    split; [| split; [| split]].
    + exists t1. split; [exact Ht1|]. exists (u ++ s2). rewrite Hu, app_assoc.
      reflexivity.
    + exact Hb1.
    + intro H; congruence.
    + intro Hall. exfalso. exact (Ha1 Hall eq_refl).
Qed.

Lemma runs_ret {A} (a : A) w : runs (ret a) w [].
Proof.
  unfold runs, ret. rewrite app_nil_r.
  split; [exists []; split; [symmetry; apply app_nil_r | exists []; reflexivity]|].
  repeat split; discriminate.
Qed.

Lemma runs_call op w : runs (call ok op) w [op].
Proof.
  unfold runs, call. destruct (ok (length (w_trace w)) op) eqn:E; cbn.
  - split; [exists [op]; split; [reflexivity | exists []; reflexivity]|].
    repeat split; discriminate.
  - split; [exists [op]; split; [reflexivity | exists []; reflexivity]|].
    split; [reflexivity|]. split; [congruence|].
    intros Hall. rewrite Hall in E. discriminate.
Qed.

Lemma runs_assign_fetch w : runs assign_fetch w [SetFetch].
Proof.
  unfold runs, assign_fetch. cbn.
  split; [exists [SetFetch]; split; [reflexivity | exists []; reflexivity]|].
  repeat split; discriminate.
Qed.

Lemma runs_get_env {B} (f : Env -> M B) w s :
  runs (f (w_env w)) w s -> runs (bind get_env f) w s.
Proof. intro H. exact H. Qed.

Lemma runs_get_bucket {B} (f : Bucket -> M B) w s :
  runs (f (w_bucket w)) w s -> runs (bind get_bucket f) w s.
Proof. intro H. exact H. Qed.

Lemma runs_set_mode {B} m (k : M B) w s :
  runs k {| w_mode := Some m; w_bucket := w_bucket w; w_env := w_env w;
            w_trace := w_trace w |} s ->
  runs (set_mode m ;;; k) w s.
Proof. intro H. exact H. Qed.

Lemma runs_for_each {A} (f : A -> M unit) (g : A -> list Op) l w :
  (forall x w, runs (f x) w (g x)) -> runs (for_each f l) w (flat_map g l).
Proof.
  intros Hf. revert w. induction l as [|x r IH]; intros w; cbn.
  - apply runs_ret.
  - apply runs_bind; [apply Hf|]. intros; apply IH.
Qed.

Lemma runs_success {A} (c : M A) w s a w1 :
  runs c w s -> c w = (Some a, w1) ->
  w_bucket w1 = w_bucket w /\ w_env w1 = apply_ops s (w_env w).
Proof.
  unfold runs. intros H E. rewrite E in H.
  destruct H as [_ [Hb [Hs _]]]. split; [exact Hb|].
  apply (Hs ltac:(discriminate)).
Qed.

Lemma runs_bind_cons {A B} (c : M A) (f : A -> M B) w op s2 :
  runs c w [op] ->
  (forall a w1, c w = (Some a, w1) -> runs (f a) w1 s2) ->
  runs (bind c f) w (op :: s2).
Proof. apply (runs_bind c f w [op] s2). Qed.

Lemma sources_remove_strategies ns e :
  e_sources (apply_ops (flat_map (fun n => [RemoveStrategy n]) ns) e) = e_sources e.
Proof.
  revert e. induction ns as [|n ns IH]; intro e; [reflexivity|].
  cbn. rewrite IH. reflexivity.
Qed.

Lemma runs_clear w : runs (clearActiveConfiguration ok) w (clear_script (w_env w)).
Proof.
  unfold clearActiveConfiguration. apply runs_get_env. unfold clear_script.
  destruct (e_activated (w_env w)) eqn:Ea; [|apply runs_ret].
  apply runs_bind; [apply runs_call|]. intros [] w1 H1.
  destruct (runs_success _ _ _ _ _ (runs_call _ _) H1) as [_ He1].
  apply runs_get_env. rewrite He1.
  change (get_source "backup" (apply_ops [Deactivate] (w_env w)))
    with (get_source "backup" (w_env w)).
  assert (Hrest : forall w2, w_env w2 = set_activated false (w_env w) ->
    runs
      (e2 <- get_env ;;
       for_each (fun name => call ok (RemoveStrategy name))
         (map strategy_name (e_strategies e2)) ;;;
       e3 <- get_env ;;
       for_each (fun source =>
           call ok (ClearTransformLog (src_name source)) ;;;
           call ok (ClearRequestQueue (src_name source)) ;;;
           call ok (ClearSyncQueue (src_name source)) ;;;
           if String.eqb (src_name source) "store"
           then call ok (ResetCache (src_name source))
           else call ok (RemoveSource (src_name source)))
         (e_sources e3))
      w2
      (flat_map (fun n => [RemoveStrategy n]) (map strategy_name (e_strategies (w_env w)))
       ++ flat_map source_cleanup (e_sources (w_env w)))).
  { intros w2 He2. apply runs_get_env. rewrite He2.
    apply runs_bind; [apply runs_for_each; intros; apply runs_call|].
    intros [] w3 H3.
    destruct (runs_success _ _ _ _ _
                (runs_for_each _ _ _ _ (fun x w => runs_call (RemoveStrategy x) w)) H3)
      as [_ He3].
    apply runs_get_env. rewrite He3, sources_remove_strategies, He2.
    apply runs_for_each. intros x w4. unfold source_cleanup.
    apply runs_bind_cons; [apply runs_call|]; intros [] ? _.
    apply runs_bind_cons; [apply runs_call|]; intros [] ? _.
    apply runs_bind_cons; [apply runs_call|]; intros [] ? _.
    destruct (String.eqb (src_name x) "store"); apply runs_call. }
  destruct (get_source "backup" (w_env w)) as [b|].
  - apply runs_bind_cons; [apply runs_call|]. intros [] w2 H2.
    apply Hrest.
    destruct (runs_success _ _ _ _ _ (runs_call _ _) H2) as [_ He2].
    rewrite He2, He1. reflexivity.
  - apply (runs_bind _ _ _ [] _); [apply runs_ret|]. intros [] w2 H2.
    cbn in H2. injection H2 as <-. apply Hrest. rewrite He1. reflexivity.
Qed.

Lemma runs_body mode w :
  runs (configure_body ok supportsIndexedDB mode) w (build_script mode (w_bucket w)).
Proof.
  unfold configure_body, build_script, build_adds, activation_tail.
  rewrite <- !app_assoc. cbn [app].
  apply runs_set_mode.
  apply runs_bind_cons; [apply runs_call|]; intros [] w1 H1.
  destruct (runs_success _ _ _ _ _ (runs_call _ _) H1) as [Hb1 _]; cbn in Hb1.
  apply runs_bind_cons; [apply runs_call|]; intros [] w2 H2.
  destruct (runs_success _ _ _ _ _ (runs_call _ _) H2) as [Hb2 _].
  apply runs_bind_cons; [apply runs_call|]; intros [] w3 H3.
  destruct (runs_success _ _ _ _ _ (runs_call _ _) H3) as [Hb3 _].
  apply runs_get_bucket. rewrite Hb3, Hb2, Hb1.
  unfold server_mode, backup_mode.
  apply runs_bind.
  - destruct (String.eqb mode "pessimistic-server"), (String.eqb mode "optimistic-server");
      cbn [orb]; try apply runs_ret;
      (apply runs_bind_cons; [apply runs_assign_fetch|]; intros [] ? _;
       apply runs_bind_cons; [apply runs_call|]; intros [] ? _;
       apply runs_bind_cons; [apply runs_call|]; intros [] ? _;
       apply runs_bind_cons; [apply runs_call|]; intros [] ? _;
       cbn [app];
       first [ apply runs_call
             | apply runs_bind_cons; [apply runs_call|]; intros [] ? _; apply runs_call ]).
  - intros [] w4 _.
    destruct (String.eqb mode "offline-only" || String.eqb mode "optimistic-server");
      cbn [app]; [|apply runs_call].
    repeat (apply runs_bind_cons; [apply runs_call|]; intros [] ? _).
    apply runs_call.
Qed.

Lemma runs_configure_chain mode w :
  runs (clearActiveConfiguration ok ;;; configure_body ok supportsIndexedDB mode) w
    (clear_script (w_env w) ++ build_script mode (w_bucket w)).
Proof.
  apply runs_bind; [apply runs_clear|]. intros [] w1 H1.
  destruct (runs_success _ _ _ _ _ (runs_clear w) H1) as [Hb1 _].
  rewrite <- Hb1. apply runs_body.
Qed.

Lemma configure_new_mode mode w :
  w_mode w <> Some mode ->
  configure ok supportsIndexedDB mode w =
  let (r, w') := (clearActiveConfiguration ok ;;; configure_body ok supportsIndexedDB mode) w
  in (Promise r, w').
Proof.
  intro H. unfold configure. destruct (w_mode w) as [cur|]; [|reflexivity].
  destruct (String.eqb_spec mode cur) as [->|_]; [congruence|reflexivity].
Qed.

End Scripts.

Lemma prefix_app_split {A} (t s1 s2 : list A) :
  prefix t (s1 ++ s2) ->
  exists p q, t = p ++ q /\ prefix p s1 /\ prefix q s2 /\ (q <> [] -> p = s1).
Proof.
  revert t. induction s1 as [|a s1 IH]; intros t [u Hu].
  - exists [], t. split; [reflexivity|]. split; [exists []; reflexivity|].
    split; [exists u; exact Hu|]. intros _; reflexivity.
  - destruct t as [|b t].
    + exists [], []. split; [reflexivity|]. split; [exists (a :: s1); reflexivity|].
      split; [exists s2; reflexivity|]. intro H; congruence.
    + injection Hu as Hab Hu. subst b.
      destruct (IH t (ex_intro _ u Hu)) as (p & q & -> & [v Hv] & Hq & Hpq).
      exists (a :: p), q. split; [reflexivity|].
      split; [exists v; rewrite Hv; reflexivity|]. split; [exact Hq|].
      intro Hne. rewrite (Hpq Hne). reflexivity.
Qed.

(** Under the oracle where every call succeeds, [configure] with a new
    mode resolves after making all the calls of the cleanup and the build. *)
Lemma configure_all_ok sIDB mode w :
  w_mode w <> Some mode ->
  exists w',
    configure all_ok sIDB mode w = (Promise (Some tt), w') /\
    w_trace w' = w_trace w ++ clear_script (w_env w) ++ build_script sIDB mode (w_bucket w) /\
    w_env w' = apply_ops (build_script sIDB mode (w_bucket w))
                 (apply_ops (clear_script (w_env w)) (w_env w)) /\
    w_bucket w' = w_bucket w.
Proof.
  intro Hm. rewrite (configure_new_mode all_ok sIDB mode w Hm).
  pose proof (runs_configure_chain all_ok sIDB mode w) as H. unfold runs in H.
  destruct ((clearActiveConfiguration all_ok ;;; configure_body all_ok sIDB mode) w)
    as [r w'] eqn:E.
  destruct H as [_ [Hb [Hs Ha]]].
  assert (Hr : r <> None) by (apply Ha; reflexivity).
  destruct r as [[]|]; [|congruence].
  destruct (Hs Hr) as [Ht He]. exists w'. repeat split; auto.
  rewrite He. unfold apply_ops. rewrite fold_left_app. reflexivity.
Qed.


(** ** What the cleanup leaves in the coordinator *)

Lemma apply_ops_app ops1 ops2 e :
  apply_ops (ops1 ++ ops2) e = apply_ops ops2 (apply_ops ops1 e).
Proof. unfold apply_ops. apply fold_left_app. Qed.

Lemma filter_filter_and {A} (f g : A -> bool) l :
  filter f (filter g l) = filter (fun x => g x && f x) l.
Proof.
  induction l as [|x l IH]; [reflexivity|]. cbn.
  destruct (g x); cbn; [destruct (f x); cbn|]; rewrite IH; reflexivity.
Qed.

Lemma filter_all_true {A} (f : A -> bool) l :
  (forall x, f x = true) -> filter f l = l.
Proof.
  intro H. induction l as [|x l IH]; [reflexivity|]. cbn. rewrite H, IH. reflexivity.
Qed.

Lemma filter_all_false {A} (f : A -> bool) l :
  (forall x, In x l -> f x = false) -> filter f l = [].
Proof.
  induction l as [|x l IH]; intro H; [reflexivity|]. cbn.
  rewrite (H x (or_introl eq_refl)). apply IH. intros y Hy. apply H. right. exact Hy.
Qed.

Lemma remove_strategies_env ns e :
  e_strategies (apply_ops (flat_map (fun n => [RemoveStrategy n]) ns) e)
  = filter (fun s => negb (existsb (String.eqb (strategy_name s)) ns)) (e_strategies e)
  /\ e_activated (apply_ops (flat_map (fun n => [RemoveStrategy n]) ns) e) = e_activated e.
Proof.
  revert e. induction ns as [|n ns IH]; intro e.
  - split; [|reflexivity]. symmetry. apply filter_all_true. reflexivity.
  - cbn [flat_map]. rewrite (apply_ops_app [RemoveStrategy n]).
    destruct (IH (apply_ops [RemoveStrategy n] e)) as [H1 H2].
    rewrite H1, H2. split; [|reflexivity].
    cbn [apply_ops fold_left apply_op e_strategies set_strategies].
    rewrite filter_filter_and. apply filter_ext. intro s. cbn [existsb].
    destruct (String.eqb (strategy_name s) n); reflexivity.
Qed.

Lemma cleanup_env l e :
  e_activated (apply_ops (flat_map source_cleanup l) e) = e_activated e /\
  e_strategies (apply_ops (flat_map source_cleanup l) e) = e_strategies e /\
  e_sources (apply_ops (flat_map source_cleanup l) e)
  = filter (fun s => negb (existsb (fun x => negb (String.eqb (src_name x) "store")
                                               && String.eqb (src_name s) (src_name x)) l))
      (e_sources e).
Proof.
  revert e. induction l as [|x l IH]; intro e.
  - split; [reflexivity|]. split; [reflexivity|]. symmetry.
    apply filter_all_true. reflexivity.
  - cbn [flat_map]. rewrite apply_ops_app.
    destruct (IH (apply_ops (source_cleanup x) e)) as [H1 [H2 H3]].
    rewrite H1, H2, H3. unfold source_cleanup.
    destruct (String.eqb (src_name x) "store") eqn:Ex;
      cbn [apply_ops fold_left apply_op e_activated e_strategies e_sources
           set_sources negb andb].
    + split; [reflexivity|]. split; [reflexivity|].
      apply filter_ext. intro s. cbn [existsb]. rewrite Ex. reflexivity.
    + split; [reflexivity|]. split; [reflexivity|].
      rewrite filter_filter_and. apply filter_ext. intro s. cbn [existsb].
      rewrite Ex. cbn [negb andb]. destruct (String.eqb (src_name s) (src_name x)); reflexivity.
Qed.

Lemma backup_reset_env e e' :
  apply_ops (match get_source "backup" e with
             | Some b => [ResetSource (src_name b)]
             | None => []
             end) e' = e'.
Proof. destruct (get_source "backup" e); reflexivity. Qed.

(** After a complete cleanup of an activated coordinator: deactivated, no
    strategy left, and the sources named ["store"] are the only ones kept. *)
Lemma clear_script_env e :
  e_activated e = true ->
  e_activated (apply_ops (clear_script e) e) = false /\
  e_strategies (apply_ops (clear_script e) e) = [] /\
  e_sources (apply_ops (clear_script e) e)
  = filter (fun s => String.eqb (src_name s) "store") (e_sources e).
Proof.
  intro Ha. unfold clear_script. rewrite Ha. rewrite !apply_ops_app, backup_reset_env.
  set (e1 := apply_ops [Deactivate] e).
  set (ns := map strategy_name (e_strategies e)).
  destruct (remove_strategies_env ns e1) as [Hs Hact].
  pose proof (sources_remove_strategies ns e1) as Hsrc.
  destruct (cleanup_env (e_sources e) (apply_ops (flat_map (fun n => [RemoveStrategy n]) ns) e1))
    as [H1 [H2 H3]].
  rewrite H1, H2, H3, Hs, Hact, Hsrc.
  split; [reflexivity|]. split.
  - apply filter_all_false. intros s Hin. subst ns. cbn [e1 apply_ops fold_left apply_op] in Hin.
    apply negb_false_iff. apply existsb_exists. exists (strategy_name s).
    split; [apply in_map; exact Hin | apply String.eqb_refl].
  - cbn [e1 apply_ops fold_left apply_op set_activated e_sources].
    apply filter_ext_in. intros s Hin.
    destruct (String.eqb (src_name s) "store") eqn:Es.
    + apply negb_true_iff. apply not_true_iff_false. intro Hex.
      apply existsb_exists in Hex as (x & _ & Hx).
      apply andb_true_iff in Hx as [Hx1 Hx2].
      apply String.eqb_eq in Hx2. rewrite <- Hx2, Es in Hx1. discriminate.
    + apply negb_false_iff. apply existsb_exists. exists s. split; [exact Hin|].
      rewrite Es, String.eqb_refl. reflexivity.
Qed.

(** ** Sanity checks on concrete inputs *)

Example fullName_ex1 :
  fullName {| firstName := Some "Ada"; lastName := Some "Lovelace"; email := None;
              twitter := None; phoneNumbers := [] |} = "Ada Lovelace".
Proof. reflexivity. Qed.

Example configure_ex1 :
  let '(r, w) := configure all_ok true "optimistic-server" (init true (fun _ => None)) in
  r = Promise (Some tt) /\ map src_name (e_sources (w_env w)) = ["store"; "remote"; "backup"].
Proof. vm_compute. split; reflexivity. Qed.

(** ** What the scripts contain *)

Lemma clear_script_ops e op :
  In op (clear_script e) ->
  is_add op = false /\ op <> Activate /\ (forall k v, op <> SetItem k v) /\
  (forall n, op <> PullAllRecords n).
Proof.
  unfold clear_script. destruct (e_activated e); [|intros []].
  intro H. rewrite !in_app_iff in H.
  destruct H as [H|[H|[H|H]]].
  - destruct H as [<-|[]].
    repeat split; try discriminate; intros; discriminate.
  - destruct (get_source "backup" e); [|destruct H]. destruct H as [<-|[]].
    repeat split; try discriminate; intros; discriminate.
  - apply in_flat_map in H as (n & _ & [<-|[]]).
    repeat split; try discriminate; intros; discriminate.
  - apply in_flat_map in H as (x & _ & H). unfold source_cleanup in H.
    destruct (String.eqb (src_name x) "store");
      repeat (destruct H as [<-|H]; [repeat split; try discriminate; intros; discriminate|]);
      destruct H.
Qed.

Lemma prefix_in {A} (p s : list A) x : prefix p s -> In x p -> In x s.
Proof. intros [u ->] H. apply in_or_app. left. exact H. Qed.

Lemma build_script_other sIDB mode b :
  mode <> "pessimistic-server" -> mode <> "optimistic-server" -> mode <> "offline-only" ->
  build_script sIDB mode b =
  [SetItem "peeps-mode" mode; AddStrategy EventLoggingStrategy;
   AddStrategy LogTruncationStrategy; Activate].
Proof.
  intros H1 H2 H3.
  unfold build_script, build_adds, activation_tail, server_mode, backup_mode.
  rewrite (proj2 (String.eqb_neq _ _) H1), (proj2 (String.eqb_neq _ _) H2),
    (proj2 (String.eqb_neq _ _) H3).
  reflexivity.
Qed.

Ltac mode_cases mode :=
  destruct (String.eqb_spec mode "pessimistic-server") as [->|?];
  [|destruct (String.eqb_spec mode "optimistic-server") as [->|?];
    [|destruct (String.eqb_spec mode "offline-only") as [->|?]]].

Lemma in_list_cases {A} (x : A) l P :
  Forall P l -> In x l -> P x.
Proof. intros HF H. rewrite Forall_forall in HF. exact (HF x H). Qed.

(** The build splits into the additions, with no activation among them,
    followed by the activations and bootstrap calls, with no addition. *)
Lemma build_script_split sIDB mode b :
  build_script sIDB mode b =
  (SetItem "peeps-mode" mode :: build_adds sIDB mode b) ++ activation_tail mode /\
  Forall (fun op => op <> Activate) (SetItem "peeps-mode" mode :: build_adds sIDB mode b) /\
  Forall (fun op => is_add op = false) (activation_tail mode).
Proof.
  split; [reflexivity|].
  unfold build_adds, activation_tail, server_mode, backup_mode.
  destruct (String.eqb mode "pessimistic-server"), (String.eqb mode "optimistic-server"),
    (String.eqb mode "offline-only");
    cbn; split; repeat constructor; discriminate.
Qed.

Lemma mode_eq_dec (m : option string) mode : {m = Some mode} + {m <> Some mode}.
Proof.
  destruct m as [c|]; [|right; discriminate].
  destruct (String.string_dec c mode) as [->|H]; [left; reflexivity|right; congruence].
Defined.

Lemma in_added_sources s ops : In (AddSource s) ops <-> In s (added_sources ops).
Proof.
  unfold added_sources. rewrite in_flat_map. split.
  - intro H. exists (AddSource s). split; [exact H | left; reflexivity].
  - intros (op & Hop & Hs). destruct op; cbn in Hs; try contradiction.
    destruct Hs as [<-|[]]. exact Hop.
Qed.

Lemma added_sources_app l1 l2 :
  added_sources (l1 ++ l2) = added_sources l1 ++ added_sources l2.
Proof. unfold added_sources. apply flat_map_app. Qed.

Lemma added_sources_clear e : added_sources (clear_script e) = [].
Proof.
  destruct (added_sources (clear_script e)) as [|s l] eqn:E; [reflexivity|].
  assert (Hs : In s (added_sources (clear_script e))) by (rewrite E; left; reflexivity).
  apply in_added_sources, clear_script_ops in Hs as [H _]. discriminate.
Qed.

Lemma added_sources_build sIDB mode b s :
  In s (added_sources (build_script sIDB mode b)) ->
  s = remote_source b \/ s = backup_source sIDB b.
Proof.
  unfold build_script, build_adds, activation_tail, server_mode, backup_mode.
  destruct (String.eqb mode "pessimistic-server"), (String.eqb mode "optimistic-server"),
    (String.eqb mode "offline-only");
    cbn; intro H; repeat (destruct H as [<-|H]; [auto|]); destruct H.
Qed.

Example split_plus_ex : split_plus "store + remote + backup" = ["store"; "remote"; "backup"].
Proof. reflexivity. Qed.

Lemma sources_build sIDB mode b e :
  e_sources (apply_ops (build_script sIDB mode b) e)
  = e_sources e ++ added_sources (build_script sIDB mode b).
Proof.
  unfold build_script, build_adds, activation_tail, server_mode, backup_mode.
  destruct (String.eqb mode "pessimistic-server"), (String.eqb mode "optimistic-server"),
    (String.eqb mode "offline-only");
    cbn; rewrite ?app_nil_r, <- ?app_assoc; reflexivity.
Qed.

Lemma names_after_clear e :
  store_only_after_cleanup e ->
  map src_name (e_sources (apply_ops (clear_script e) e)) = ["store"].
Proof.
  intros [Hs [Ha|Ha]].
  - rewrite (proj2 (proj2 (clear_script_env e Ha))). exact Hs.
  - destruct (e_activated e) eqn:E.
    + rewrite (proj2 (proj2 (clear_script_env e E))). exact Hs.
    + unfold clear_script. rewrite E. exact Ha.
Qed.

Lemma storage_no_setitem ops e :
  (forall op, In op ops -> forall k v, op <> SetItem k v) ->
  e_storage (apply_ops ops e) = e_storage e.
Proof.
  revert e. induction ops as [|op ops IH]; intros e H; [reflexivity|].
  change (apply_ops (op :: ops) e) with (apply_ops ops (apply_op op e)).
  rewrite IH by (intros op' Hin; apply H; right; exact Hin).
  destruct op; try reflexivity.
  exfalso. exact (H _ (or_introl eq_refl) _ _ eq_refl).
Qed.

Lemma build_tail_no_setitem sIDB mode b op :
  In op (build_adds sIDB mode b ++ activation_tail mode) -> forall k v, op <> SetItem k v.
Proof.
  unfold build_adds, activation_tail, server_mode, backup_mode.
  destruct (String.eqb mode "pessimistic-server"), (String.eqb mode "optimistic-server"),
    (String.eqb mode "offline-only");
    cbn; intro H; repeat (destruct H as [<-|H]; [intros; discriminate|]); destruct H.
Qed.

Lemma strategies_build sIDB mode b e :
  e_strategies (apply_ops (build_script sIDB mode b) e)
  = e_strategies e ++ added_strategies (build_script sIDB mode b).
Proof.
  unfold build_script, build_adds, activation_tail, server_mode, backup_mode.
  destruct (String.eqb mode "pessimistic-server"), (String.eqb mode "optimistic-server"),
    (String.eqb mode "offline-only");
    cbn; rewrite ?app_nil_r, <- ?app_assoc; reflexivity.
Qed.

(** The strategies installed by a resolved [configure] on a coordinator that
    is activated (so the cleanup removes every strategy) or has none. *)
Lemma configure_final_strategies sIDB mode w :
  w_mode w <> Some mode ->
  (e_activated (w_env w) = true \/ e_strategies (w_env w) = []) ->
  exists w', configure all_ok sIDB mode w = (Promise (Some tt), w') /\
    e_strategies (w_env w') = added_strategies (build_script sIDB mode (w_bucket w)).
Proof.
  intros Hm Hs. destruct (configure_all_ok sIDB mode w Hm) as (w' & Hc & _ & He & _).
  exists w'. split; [exact Hc|]. rewrite He, strategies_build.
  destruct (e_activated (w_env w)) eqn:Ea.
  - rewrite (proj1 (proj2 (clear_script_env _ Ea))). reflexivity.
  - destruct Hs as [Hs|Hs]; [discriminate|].
    unfold clear_script. rewrite Ea. cbn. rewrite Hs. reflexivity.
Qed.

Lemma configure_same w ok sIDB mode :
  w_mode w = Some mode -> configure ok sIDB mode w = (Undefined, w).
Proof.
  intro H. unfold configure. rewrite H, String.eqb_refl. reflexivity.
Qed.

(** ** The service's [mode] field *)

Lemma keeps_mode_bind {A B} (c : M A) (f : A -> M B) :
  keeps_mode c -> (forall a, keeps_mode (f a)) -> keeps_mode (bind c f).
Proof.
  intros Hc Hf w. unfold bind. specialize (Hc w).
  destruct (c w) as [[a|] w1]; cbn in *; [rewrite Hf|]; exact Hc.
Qed.

Lemma keeps_mode_call ok op : keeps_mode (call ok op).
Proof. intro w. unfold call. destruct (ok _ _); reflexivity. Qed.

Lemma keeps_mode_ret {A} (a : A) : keeps_mode (ret a).
Proof. intro w. reflexivity. Qed.

Lemma keeps_mode_get_env : keeps_mode get_env.
Proof. intro w. reflexivity. Qed.

Lemma keeps_mode_get_bucket : keeps_mode get_bucket.
Proof. intro w. reflexivity. Qed.

Lemma keeps_mode_assign_fetch : keeps_mode assign_fetch.
Proof. intro w. reflexivity. Qed.

Lemma keeps_mode_for_each {A} (f : A -> M unit) l :
  (forall x, keeps_mode (f x)) -> keeps_mode (for_each f l).
Proof.
  intro Hf. induction l as [|x l IH]; cbn.
  - apply keeps_mode_ret.
  - apply keeps_mode_bind; [apply Hf | intros; exact IH].
Qed.

Ltac keeps_mode_tac :=
  repeat first
    [ apply keeps_mode_bind; [|intros ?]
    | apply keeps_mode_call
    | apply keeps_mode_ret
    | apply keeps_mode_get_env
    | apply keeps_mode_get_bucket
    | apply keeps_mode_assign_fetch
    | apply keeps_mode_for_each; intros ?
    | match goal with |- keeps_mode (if ?b then _ else _) => destruct b end
    | match goal with |- keeps_mode (match ?x with _ => _ end) => destruct x end ].

Lemma keeps_mode_clear ok : keeps_mode (clearActiveConfiguration ok).
Proof. unfold clearActiveConfiguration. keeps_mode_tac. Qed.

Lemma body_sets_mode ok sIDB mode w :
  w_mode (snd (configure_body ok sIDB mode w)) = Some mode.
Proof.
  unfold configure_body. cbn [bind set_mode].
  match goal with |- w_mode (snd (?c ?w1)) = _ =>
    assert (H : keeps_mode c) by keeps_mode_tac; rewrite (H w1) end.
  reflexivity.
Qed.

(** After a [configure] that changes the mode, the service's mode is the new
    one, unless the promise rejected during the cleanup. *)
Lemma configure_mode ok sIDB mode w :
  w_mode w <> Some mode ->
  let (r, w') := configure ok sIDB mode w in
  w_mode w' = Some mode \/ (r = Promise None /\ w_mode w' = w_mode w).
Proof.
  intro Hm. rewrite (configure_new_mode ok sIDB mode w Hm).
  pose proof (keeps_mode_clear ok w) as Hk. unfold bind.
  destruct (clearActiveConfiguration ok w) as [[[]|] w1]; cbn in Hk.
  - destruct (configure_body ok sIDB mode w1) as [r w2] eqn:E. left.
    pose proof (body_sets_mode ok sIDB mode w1) as Hb. rewrite E in Hb. exact Hb.
  - right. split; [reflexivity | exact Hk].
Qed.

Lemma activated_build sIDB mode b e :
  e_activated (apply_ops (build_script sIDB mode b) e) = true.
Proof.
  unfold build_script, build_adds, activation_tail, server_mode, backup_mode.
  destruct (String.eqb mode "pessimistic-server"), (String.eqb mode "optimistic-server"),
    (String.eqb mode "offline-only"); reflexivity.
Qed.

Lemma storage_build sIDB mode b e :
  e_storage (apply_ops (build_script sIDB mode b) e) "peeps-mode" = Some mode.
Proof.
  unfold build_script.
  change (apply_ops (SetItem "peeps-mode" mode :: ?l) e)
    with (apply_ops l (apply_op (SetItem "peeps-mode" mode) e)).
  rewrite storage_no_setitem by apply build_tail_no_setitem.
  cbn. rewrite ?String.eqb_refl. reflexivity.
Qed.

Lemma stored_mode_nonempty e : stored_mode e <> "".
Proof.
  unfold stored_mode. destruct (e_storage e "peeps-mode") as [s|]; [|discriminate].
  destruct (String.eqb_spec s ""); [discriminate|assumption].
Qed.

Lemma added_sources_not_store sIDB mode b :
  filter (fun s => String.eqb (src_name s) "store")
    (store_source :: added_sources (build_script sIDB mode b)) = [store_source].
Proof.
  cbn [filter]. rewrite filter_all_false; [reflexivity|].
  intros s Hs. apply added_sources_build in Hs as [->| ->]; reflexivity.
Qed.

(** A [configure] whose calls all succeed keeps the session state. *)
Lemma session_inv_configure sIDB mode w :
  session_inv sIDB w -> session_inv sIDB (snd (configure all_ok sIDB mode w)).
Proof.
  intros [Hb Hw].
  destruct (mode_eq_dec (w_mode w) mode) as [Hm|Hm].
  - rewrite (configure_same w all_ok sIDB mode Hm). split; assumption.
  - pose proof (configure_mode all_ok sIDB mode w Hm) as Hmode.
    destruct (configure_all_ok sIDB mode w Hm) as (w' & Hc & _ & He & Hb').
    assert (Hs : e_activated (w_env w) = true \/ e_strategies (w_env w) = []).
    { destruct (w_mode w); [left|right]; apply Hw. }
    destruct (configure_final_strategies sIDB mode w Hm Hs) as (w'' & Hc' & Hst).
    rewrite Hc' in Hc. injection Hc as Hw'. subst w''.
    rewrite Hc' in Hmode |- *. cbn [snd].
    destruct Hmode as [Hmode|[Hr _]]; [|discriminate].
    split; [congruence|]. rewrite Hmode, Hst, He, Hb.
    split; [|split; [reflexivity|split; [apply activated_build|apply storage_build]]].
    rewrite sources_build.
    destruct (w_mode w) as [m|]; destruct Hw as [Hsrc [_ Ha]].
    + destruct Ha as [Ha _]. rewrite (proj2 (proj2 (clear_script_env _ Ha))), Hsrc.
      rewrite added_sources_not_store. reflexivity.
    + unfold clear_script. rewrite Ha. cbn [apply_ops fold_left]. rewrite Hsrc.
      reflexivity.
Qed.

Lemma session_inv_run_modes sIDB ms w :
  session_inv sIDB w -> session_inv sIDB (run_modes sIDB ms w).
Proof.
  revert w. induction ms as [|m ms IH]; intros w H; [exact H|].
  cbn. apply IH, session_inv_configure, H.
Qed.

Lemma configure_sets_mode_all_ok sIDB mode w :
  w_mode (snd (configure all_ok sIDB mode w)) = Some mode.
Proof.
  destruct (mode_eq_dec (w_mode w) mode) as [Hm|Hm].
  - rewrite (configure_same w all_ok sIDB mode Hm). exact Hm.
  - pose proof (configure_mode all_ok sIDB mode w Hm) as H.
    destruct (configure_all_ok sIDB mode w Hm) as (w' & Hc & _).
    rewrite Hc in H |- *. destruct H as [H|[H _]]; [exact H|discriminate].
Qed.


(** ** Claims *)

(** C8: [configure(m)] with [m] the current mode returns [undefined] and
    leaves everything as it was: no call into the coordinator (no
    deactivation, no strategy or source added or removed), no write to the
    local storage, and the trace unchanged; every call with another mode
    returns a promise. *)
Theorem configure_same_mode_is_noop ok sIDB mode w :
  (w_mode w = Some mode -> configure ok sIDB mode w = (Undefined, w)) /\
  (forall mode', w_mode w <> Some mode' ->
     exists r w', configure ok sIDB mode' w = (Promise r, w')).
Proof.
  split.
  - intro H. unfold configure. rewrite H, String.eqb_refl. reflexivity.
  - intros mode' H. rewrite (configure_new_mode ok sIDB mode' w H).
    destruct ((clearActiveConfiguration ok ;;; configure_body ok sIDB mode') w) as [r w'].
    exists r, w'. reflexivity.
Qed.

(** C10: [fullName] is "first last" when both names are non-empty, the one
    non-empty name when only one is, and "(No name)" when both are empty or
    absent. *)
Theorem fullName_cases c :
  (present (firstName c) -> present (lastName c) ->
     fullName c = text (firstName c) ++ " " ++ text (lastName c))%string /\
  (present (firstName c) -> ~ present (lastName c) -> fullName c = text (firstName c)) /\
  (~ present (firstName c) -> present (lastName c) -> fullName c = text (lastName c)) /\
  (~ present (firstName c) -> ~ present (lastName c) -> fullName c = "(No name)").
Proof.
  unfold fullName, present, text, truthy, js_string.
  destruct (firstName c) as [f|], (lastName c) as [l|];
    try (destruct (String.eqb_spec f "") as [Hf|Hf]);
    try (destruct (String.eqb_spec l "") as [Hl|Hl]);
    cbn; repeat split; intros; try contradiction; reflexivity.
Qed.

(** C5: when [configure(m)] changes the mode, the calls it makes are the
    cleanup followed by the build.  The cleanup of an activated coordinator
    is, in order: deactivate, reset the backup source when there is one,
    remove every strategy, then for every source clear its transform log,
    request queue and sync queue, and reset the cache of the store or remove
    any other source; a coordinator that is not activated gets no cleanup.
    No addition and no activation happens during the cleanup; the build only
    starts once the cleanup has completed, and leaves the coordinator
    deactivated, without strategy, with only its store.  Every activation of
    the build comes after every strategy and source it adds.  This holds
    whichever calls succeed or fail. *)
Theorem configure_cleanup_then_build ok sIDB mode w :
  w_mode w <> Some mode ->
  let (r, w') := configure ok sIDB mode w in
  exists pre post,
    w_trace w' = w_trace w ++ pre ++ post /\
    prefix pre (clear_script (w_env w)) /\
    (e_activated (w_env w) = false -> pre = []) /\
    (forall op, In op pre -> is_add op = false /\ op <> Activate) /\
    (post <> [] -> pre = clear_script (w_env w)) /\
    (e_activated (w_env w) = true -> post <> [] ->
       e_activated (apply_ops pre (w_env w)) = false /\
       e_strategies (apply_ops pre (w_env w)) = [] /\
       e_sources (apply_ops pre (w_env w))
       = filter (fun s => String.eqb (src_name s) "store") (e_sources (w_env w))) /\
    (exists adds acts, post = adds ++ acts /\
       (forall op, In op adds -> op <> Activate) /\
       (forall op, In op acts -> is_add op = false) /\
       (acts <> [] -> forall op, In op (build_adds sIDB mode (w_bucket w)) -> In op adds)).
Proof.
  intro Hm. rewrite (configure_new_mode ok sIDB mode w Hm).
  pose proof (runs_configure_chain ok sIDB mode w) as H. unfold runs in H.
  destruct ((clearActiveConfiguration ok ;;; configure_body ok sIDB mode) w) as [r w'].
  destruct H as [[t [Ht Hp]] _].
  destruct (prefix_app_split _ _ _ Hp) as (pre & post & -> & Hpre & Hpost & Hfull).
  destruct (build_script_split sIDB mode (w_bucket w)) as [Hb [Hna Hnadd]].
  rewrite Hb in Hpost.
  destruct (prefix_app_split _ _ _ Hpost) as (adds & acts & -> & Hadds & Hacts & Hall).
  exists pre, (adds ++ acts). split; [exact Ht|].
  split; [exact Hpre|].
  split.
  { intro Ha. destruct Hpre as [u Hu]. unfold clear_script in Hu. rewrite Ha in Hu.
    destruct pre; [reflexivity|discriminate]. }
  split.
  { intros op Hin. destruct (clear_script_ops _ _ (prefix_in _ _ _ Hpre Hin)) as [H1 [H2 _]].
    split; assumption. }
  split; [exact Hfull|].
  split.
  { intros Ha Hne. rewrite (Hfull Hne). apply clear_script_env. exact Ha. }
  exists adds, acts. split; [reflexivity|]. split.
  - intros op Hin. exact (in_list_cases _ _ _ Hna (prefix_in _ _ _ Hadds Hin)).
  - split; [intros op Hin; exact (in_list_cases _ _ _ Hnadd (prefix_in _ _ _ Hacts Hin))|].
    intros Hne op Hin. rewrite (Hall Hne). right. exact Hin.
Qed.

(** C6: in the modes offline-only and optimistic-server, [configure] ends
    with: activate the coordinator, pull all records from the backup, sync
    the result into the store, clear the backup's transform log, clear the
    store's transform log, activate again; in every other mode it ends with
    its one activation.  No activation and no pull happens before. *)
Theorem configure_backup_bootstrap sIDB mode w :
  w_mode w <> Some mode ->
  exists w' pre,
    configure all_ok sIDB mode w = (Promise (Some tt), w') /\
    w_trace w' = w_trace w ++ pre ++
      (if String.eqb mode "offline-only" || String.eqb mode "optimistic-server"
       then [Activate; PullAllRecords "backup"; SyncStore;
             ClearTransformLog "backup"; ClearTransformLog "store"; Activate]
       else [Activate]) /\
    ~ In Activate pre /\
    (forall n, ~ In (PullAllRecords n) pre).
Proof.
  intro Hm. destruct (configure_all_ok sIDB mode w Hm) as (w' & Hc & Ht & _ & _).
  exists w', (clear_script (w_env w) ++ SetItem "peeps-mode" mode :: build_adds sIDB mode (w_bucket w)).
  split; [exact Hc|]. split.
  - rewrite Ht. unfold build_script. rewrite <- !app_assoc. reflexivity.
  - assert (Hb : Forall (fun op => op <> Activate /\ forall n, op <> PullAllRecords n)
                   (SetItem "peeps-mode" mode :: build_adds sIDB mode (w_bucket w))).
    { unfold build_adds, server_mode, backup_mode.
      destruct (String.eqb mode "pessimistic-server"), (String.eqb mode "optimistic-server"),
        (String.eqb mode "offline-only");
        cbn; repeat constructor; discriminate. }
    rewrite Forall_forall in Hb. split.
    + intro H. apply in_app_iff in H as [H|H].
      * exact (proj1 (proj2 (clear_script_ops _ _ H)) eq_refl).
      * exact (proj1 (Hb _ H) eq_refl).
    + intros n H. apply in_app_iff in H as [H|H].
      * exact (proj2 (proj2 (proj2 (clear_script_ops _ _ H))) n eq_refl).
      * exact (proj2 (Hb _ H) n eq_refl).
Qed.


(** C4: [availableModes] lists exactly the four modes; [configure(mode)]
    adds the JSON:API remote source exactly when the mode is
    pessimistic-server or optimistic-server, the backup source exactly when
    it is offline-only or optimistic-server, and no other source; so, on a
    coordinator whose only kept source is the store, the sources after
    configuring an available mode are the ones its description lists. *)
Theorem configure_sources_by_mode :
  map mode_id availableModes
  = ["memory-only"; "offline-only"; "pessimistic-server"; "optimistic-server"] /\
  (forall sIDB mode w,
     w_mode w <> Some mode ->
     exists w', configure all_ok sIDB mode w = (Promise (Some tt), w') /\
     exists new, w_trace w' = w_trace w ++ new /\
       ((exists s, In (AddSource s) new /\ src_name s = "remote" /\ src_class s = JSONAPISource)
        <-> mode = "pessimistic-server" \/ mode = "optimistic-server") /\
       ((exists s, In (AddSource s) new /\ src_name s = "backup")
        <-> mode = "offline-only" \/ mode = "optimistic-server") /\
       (forall s, In (AddSource s) new -> src_name s = "remote" \/ src_name s = "backup")) /\
  (forall sIDB entry w,
     In entry availableModes ->
     w_mode w <> Some (mode_id entry) ->
     store_only_after_cleanup (w_env w) ->
     exists w', configure all_ok sIDB (mode_id entry) w = (Promise (Some tt), w') /\
       map src_name (e_sources (w_env w')) = split_plus (mode_description entry)).
Proof.
  split; [reflexivity|]. split.
  - intros sIDB mode w Hm.
    destruct (configure_all_ok sIDB mode w Hm) as (w' & Hc & Ht & _ & _).
    exists w'. split; [exact Hc|].
    eexists. split; [exact Ht|].
    assert (Hiff : forall s, In (AddSource s)
                      (clear_script (w_env w) ++ build_script sIDB mode (w_bucket w))
                    <-> In s (added_sources (build_script sIDB mode (w_bucket w)))).
    { intro s. rewrite in_added_sources, added_sources_app, added_sources_clear. reflexivity. }
    setoid_rewrite Hiff.
    mode_cases mode;
      [| | | rewrite build_script_other by assumption];
      cbn; split; [| split | | split | | split | | split];
      try (intros s H; repeat (destruct H as [<-|H]; [cbn; auto|]); destruct H);
      split; intros H;
      repeat match goal with
             | H : exists _, _ |- _ => destruct H as [? H]
             | H : _ /\ _ |- _ => destruct H as [? H]
             end;
      repeat match goal with
             | H : In _ _ |- _ => destruct H as [<-|H]
             | H : _ = _ \/ _ |- _ => destruct H as [<-|H]
             | H : False |- _ => destruct H
             end;
      cbn in *;
      try discriminate; try (left; reflexivity); try (right; reflexivity);
      try (destruct H; congruence);
      try (eexists; split; [left; reflexivity|]; cbn; auto; fail);
      try (eexists; split; [right; left; reflexivity|]; cbn; auto; fail).
  - intros sIDB entry w Hin Hm Hst.
    destruct (configure_all_ok sIDB (mode_id entry) w Hm) as (w' & Hc & _ & He & _).
    exists w'. split; [exact Hc|]. rewrite He, sources_build, map_app, (names_after_clear _ Hst).
    cbn in Hin. destruct Hin as [<-|[<-|[<-|[<-|[]]]]]; reflexivity.
Qed.

(** C9, as the code has it: a [configure(m)] that changes the mode and
    resolves has written [m] under ['peeps-mode'] before adding any strategy
    or source; [initialize()] configures the stored mode, or
    ['offline-only'] when nothing or the empty string is stored; so any
    non-empty mode set by a resolved [configure] is the one the next
    session's [initialize()] configures. *)
Theorem mode_persisted_and_restored :
  (forall ok sIDB mode w,
     w_mode w <> Some mode ->
     let (r, w') := configure ok sIDB mode w in
     r = Promise (Some tt) ->
     e_storage (w_env w') "peeps-mode" = Some mode /\
     exists pre rest,
       w_trace w' = w_trace w ++ pre ++ SetItem "peeps-mode" mode :: rest /\
       forall op, In op pre -> is_add op = false) /\
  (forall ok sIDB w,
     initialize ok sIDB w =
     configure ok sIDB (match e_storage (w_env w) "peeps-mode" with
                        | Some s => if String.eqb s "" then "offline-only" else s
                        | None => "offline-only"
                        end) w) /\
  (forall ok sIDB mode w ok' sIDB',
     mode <> "" ->
     w_mode w <> Some mode ->
     let (r, w') := configure ok sIDB mode w in
     r = Promise (Some tt) ->
     initialize ok' sIDB' (init sIDB' (e_storage (w_env w')))
     = configure ok' sIDB' mode (init sIDB' (e_storage (w_env w')))).
Proof.
  assert (Hsaved : forall ok sIDB mode w,
     w_mode w <> Some mode ->
     let (r, w') := configure ok sIDB mode w in
     r = Promise (Some tt) ->
     e_storage (w_env w') "peeps-mode" = Some mode /\
     w_trace w' = w_trace w ++ clear_script (w_env w) ++ build_script sIDB mode (w_bucket w)).
  { intros ok sIDB mode w Hm. rewrite (configure_new_mode ok sIDB mode w Hm).
    pose proof (runs_configure_chain ok sIDB mode w) as H. unfold runs in H.
    destruct ((clearActiveConfiguration ok ;;; configure_body ok sIDB mode) w) as [r w'].
    intro Hr. injection Hr as ->. destruct H as [_ [_ [Hs _]]].
    destruct (Hs ltac:(discriminate)) as [Ht He]. split; [|exact Ht].
    rewrite He, apply_ops_app. unfold build_script.
    change (apply_ops (SetItem "peeps-mode" mode :: ?l) ?e)
      with (apply_ops l (apply_op (SetItem "peeps-mode" mode) e)).
    rewrite storage_no_setitem by apply build_tail_no_setitem.
    cbn. rewrite ?String.eqb_refl. reflexivity. }
  split; [|split].
  - intros ok sIDB mode w Hm. specialize (Hsaved ok sIDB mode w Hm).
    destruct (configure ok sIDB mode w) as [r w']. intro Hr.
    destruct (Hsaved Hr) as [Hst Ht]. split; [exact Hst|].
    exists (clear_script (w_env w)), (build_adds sIDB mode (w_bucket w) ++ activation_tail mode).
    split; [exact Ht|]. intros op Hin. exact (proj1 (clear_script_ops _ _ Hin)).
  - intros. reflexivity.
  - intros ok sIDB mode w ok' sIDB' Hne Hm. specialize (Hsaved ok sIDB mode w Hm).
    destruct (configure ok sIDB mode w) as [r w']. intro Hr.
    destruct (Hsaved Hr) as [Hst _].
    unfold initialize, stored_mode. cbn [w_env init fresh_env e_storage]. rewrite Hst.
    rewrite (proj2 (String.eqb_neq _ _) Hne). reflexivity.
Qed.

(** C1, as the code has it: in optimistic-server mode, when a push to the
    remote fails with an error that is not a [NetworkError], the [pushFail]
    strategy alerts "Unable to complete "<label>"" when the transform has a
    non-empty label and "Unable to complete operation" otherwise, rolls the
    store back to just before the transform ([rollback(id, -1)]) when the
    store's transform log contains it, and skips the remote's request queue
    entry.  In pessimistic-server mode the same failure reaches the push
    strategy's catch instead, which skips the store's and the remote's
    request queue entries and rethrows: no alert, no rollback. *)
Theorem optimistic_push_failure_other_error sIDB w contains t :
  (e_activated (w_env w) = true \/ e_strategies (w_env w) = []) ->
  (w_mode w <> Some "optimistic-server" ->
   exists w', configure all_ok sIDB "optimistic-server" w = (Promise (Some tt), w') /\
    remote_failure_effects (e_strategies (w_env w')) contains ActPush t OtherError
    = [Alert (match transform_label t with
              | Some l => "Unable to complete " ++ quote ++ l ++ quote
              | None => "Unable to complete operation"
              end)%string]
      ++ (if contains (t_id t) then [Rollback (t_id t) (-1)] else [])
      ++ [SkipRequestQueue "remote"]) /\
  (w_mode w <> Some "pessimistic-server" ->
   exists w', configure all_ok sIDB "pessimistic-server" w = (Promise (Some tt), w') /\
    remote_failure_effects (e_strategies (w_env w')) contains ActPush t OtherError
    = [SkipRequestQueue "store"; SkipRequestQueue "remote"; Rethrow]).
Proof.
  intros Hs. split; intros Hm;
    destruct (configure_final_strategies sIDB _ w Hm Hs) as (w' & Hc & He);
    exists w'; (split; [exact Hc|]); rewrite He; cbn;
    destruct (contains (t_id t)); reflexivity.
Qed.

(** The counterexample to C1 as stated: in pessimistic-server mode a
    failed push with a non-network error is handled by the push strategy's
    [catch]: both request queues are skipped and the error rethrown, with
    no alert and no rollback. *)
Lemma pessimistic_push_failure_no_alert :
  let (r, w') := configure all_ok true "pessimistic-server" (init true (fun _ => None)) in
  r = Promise (Some tt) /\
  remote_failure_effects (e_strategies (w_env w')) (fun _ => true) ActPush
    {| t_id := "t1"; t_options := Some {| label := Some "Update contact" |} |} OtherError
  = [SkipRequestQueue "store"; SkipRequestQueue "remote"; Rethrow].
Proof. vm_compute. split; reflexivity. Qed.

(** C2, as the code has it: in optimistic-server mode, when a push to the
    remote fails with a [NetworkError], the only effect is a retry of the
    remote's request queue scheduled after 5000 ms: no alert, no rollback.
    In pessimistic-server mode a push failing with a [NetworkError] schedules
    no retry: the push strategy's catch skips the store's and the remote's
    request queue entries and rethrows. *)
Theorem optimistic_push_failure_network_error sIDB w contains t :
  (e_activated (w_env w) = true \/ e_strategies (w_env w) = []) ->
  (w_mode w <> Some "optimistic-server" ->
   exists w', configure all_ok sIDB "optimistic-server" w = (Promise (Some tt), w') /\
    remote_failure_effects (e_strategies (w_env w')) contains ActPush t NetworkError
    = [SetTimeout "remote" 5000]) /\
  (w_mode w <> Some "pessimistic-server" ->
   exists w', configure all_ok sIDB "pessimistic-server" w = (Promise (Some tt), w') /\
    remote_failure_effects (e_strategies (w_env w')) contains ActPush t NetworkError
    = [SkipRequestQueue "store"; SkipRequestQueue "remote"; Rethrow]).
Proof.
  intros Hs. split; intros Hm;
    destruct (configure_final_strategies sIDB _ w Hm Hs) as (w' & Hc & He);
    exists w'; (split; [exact Hc|]); rewrite He; reflexivity.
Qed.

(** The counterexample to C2 as stated: in pessimistic-server mode a push
    failing with a [NetworkError] schedules no retry. *)
Lemma pessimistic_push_network_error_no_retry :
  let (r, w') := configure all_ok false "pessimistic-server" (init false (fun _ => None)) in
  r = Promise (Some tt) /\
  remote_failure_effects (e_strategies (w_env w')) (fun _ => false) ActPush
    {| t_id := "t2"; t_options := None |} NetworkError
  = [SkipRequestQueue "store"; SkipRequestQueue "remote"; Rethrow].
Proof. vm_compute. split; reflexivity. Qed.

(** C3, as the code has it: the failure of a remote pull or push has one of
    three handlings.  In optimistic-server mode a failed push gets the
    [pushFail] policy (retry after 5000 ms on a [NetworkError]; otherwise
    alert, rollback when the store's log has the transform, skip the
    remote's queue entry).  A failed pull in either server mode, and a
    failed push in pessimistic-server mode, skip the store's and the
    remote's request queue entries and rethrow.  Any other mode installs no
    handler. *)
Theorem remote_failure_policies sIDB mode w contains a t e :
  w_mode w <> Some mode ->
  (e_activated (w_env w) = true \/ e_strategies (w_env w) = []) ->
  a = ActPull \/ a = ActPush ->
  exists w', configure all_ok sIDB mode w = (Promise (Some tt), w') /\
    remote_failure_effects (e_strategies (w_env w')) contains a t e
    = if String.eqb mode "optimistic-server"
         && match a with ActPush => true | _ => false end
      then match e with
           | NetworkError => [SetTimeout "remote" 5000]
           | OtherError =>
               [Alert (alert_message t)]
               ++ (if contains (t_id t) then [Rollback (t_id t) (-1)] else [])
               ++ [SkipRequestQueue "remote"]
           end
      else if String.eqb mode "pessimistic-server" || String.eqb mode "optimistic-server"
      then [SkipRequestQueue "store"; SkipRequestQueue "remote"; Rethrow]
      else [].
Proof.
  intros Hm Hs Ha. destruct (configure_final_strategies sIDB _ w Hm Hs) as (w' & Hc & He).
  exists w'. split; [exact Hc|]. rewrite He.
  mode_cases mode;
    [| | | rewrite build_script_other by assumption;
           repeat match goal with
                  | H : mode <> ?m |- _ => rewrite (proj2 (String.eqb_neq mode m) H)
                  end];
    destruct Ha as [-> | ->]; destruct e; cbn; destruct (contains (t_id t)); reflexivity.
Qed.

(** The counterexample to C3 as stated: in optimistic-server mode a failed
    pull is neither retried nor alerted on: its [catch] skips both queues
    and rethrows. *)
Lemma optimistic_pull_failure_third_policy :
  let (r, w') := configure all_ok true "optimistic-server" (init true (fun _ => None)) in
  r = Promise (Some tt) /\
  remote_failure_effects (e_strategies (w_env w')) (fun _ => true) ActPull
    {| t_id := "t3"; t_options := None |} OtherError
  = [SkipRequestQueue "store"; SkipRequestQueue "remote"; Rethrow].
Proof. vm_compute. split; reflexivity. Qed.

(** The counterexample to C9 as stated: [configure("")] from a fresh
    service resolves and stores [""], yet the next session's
    [initialize()] configures ['offline-only'], not [""]. *)
Lemma empty_mode_not_restored :
  let (r, w') := configure all_ok true "" (init true (fun _ => None)) in
  r = Promise (Some tt) /\
  initialize all_ok true (init true (e_storage (w_env w')))
  = configure all_ok true "offline-only" (init true (e_storage (w_env w'))).
Proof. vm_compute. split; reflexivity. Qed.

(** ** Witnesses *)

Lemma optimistic_push_failure_other_error_witness :
  e_activated (w_env (session_after "memory-only")) = true /\
  (exists w', configure all_ok true "optimistic-server" (session_after "memory-only")
              = (Promise (Some tt), w') /\
    remote_failure_effects (e_strategies (w_env w')) (fun _ => true) ActPush
      sample_transform OtherError
    = [Alert ("Unable to complete " ++ quote ++ "Update contact" ++ quote)%string;
       Rollback "t-update" (-1); SkipRequestQueue "remote"]) /\
  (exists w', configure all_ok true "pessimistic-server" (session_after "memory-only")
              = (Promise (Some tt), w') /\
    remote_failure_effects (e_strategies (w_env w')) (fun _ => true) ActPush
      sample_transform OtherError
    = [SkipRequestQueue "store"; SkipRequestQueue "remote"; Rethrow]).
Proof.
  assert (Ha : e_activated (w_env (session_after "memory-only")) = true)
    by (vm_compute; reflexivity).
  destruct (optimistic_push_failure_other_error true (session_after "memory-only")
              (fun _ => true) sample_transform (or_introl Ha)) as [H1 H2].
  split; [exact Ha|].
  split; [apply H1 | apply H2]; vm_compute; discriminate.
Defined.

Lemma optimistic_push_failure_network_error_witness :
  e_activated (w_env (session_after "offline-only")) = true /\
  (exists w', configure all_ok true "optimistic-server" (session_after "offline-only")
              = (Promise (Some tt), w') /\
    remote_failure_effects (e_strategies (w_env w')) (fun _ => false) ActPush
      sample_transform NetworkError = [SetTimeout "remote" 5000]) /\
  (exists w', configure all_ok true "pessimistic-server" (session_after "offline-only")
              = (Promise (Some tt), w') /\
    remote_failure_effects (e_strategies (w_env w')) (fun _ => false) ActPush
      sample_transform NetworkError
    = [SkipRequestQueue "store"; SkipRequestQueue "remote"; Rethrow]).
Proof.
  assert (Ha : e_activated (w_env (session_after "offline-only")) = true)
    by (vm_compute; reflexivity).
  destruct (optimistic_push_failure_network_error true (session_after "offline-only")
              (fun _ => false) sample_transform (or_introl Ha)) as [H1 H2].
  split; [exact Ha|].
  split; [apply H1 | apply H2]; vm_compute; discriminate.
Defined.

Lemma remote_failure_policies_witness :
  exists w', configure all_ok true "pessimistic-server" (session_after "optimistic-server")
             = (Promise (Some tt), w') /\
    remote_failure_effects (e_strategies (w_env w')) (fun _ => true) ActPush
      sample_transform OtherError
    = [SkipRequestQueue "store"; SkipRequestQueue "remote"; Rethrow].
Proof.
  apply (remote_failure_policies true "pessimistic-server" (session_after "optimistic-server")
           (fun _ => true) ActPush sample_transform OtherError);
    [vm_compute; discriminate | left; vm_compute; reflexivity | right; reflexivity].
Defined.

Lemma configure_sources_by_mode_witness :
  exists w', configure all_ok false "optimistic-server" (session_after "memory-only")
             = (Promise (Some tt), w') /\
    map src_name (e_sources (w_env w')) = split_plus "store + remote + backup".
Proof.
  apply (proj2 (proj2 configure_sources_by_mode) false
           {| mode_id := "optimistic-server"; mode_description := "store + remote + backup" |}
           (session_after "memory-only"));
    [right; right; right; left; reflexivity | vm_compute; discriminate |
     split; [vm_compute; reflexivity | left; vm_compute; reflexivity]].
Defined.

Lemma configure_cleanup_then_build_witness :
  w_mode (session_after "optimistic-server") <> Some "memory-only" /\
  let (r, w') := configure (fun n _ => Nat.ltb n 12) true "memory-only"
                   (session_after "optimistic-server") in
  exists pre post,
    w_trace w' = w_trace (session_after "optimistic-server") ++ pre ++ post /\
    prefix pre (clear_script (w_env (session_after "optimistic-server"))) /\
    (e_activated (w_env (session_after "optimistic-server")) = false -> pre = []) /\
    (forall op, In op pre -> is_add op = false /\ op <> Activate) /\
    (post <> [] -> pre = clear_script (w_env (session_after "optimistic-server"))) /\
    (e_activated (w_env (session_after "optimistic-server")) = true -> post <> [] ->
       e_activated (apply_ops pre (w_env (session_after "optimistic-server"))) = false /\
       e_strategies (apply_ops pre (w_env (session_after "optimistic-server"))) = [] /\
       e_sources (apply_ops pre (w_env (session_after "optimistic-server")))
       = filter (fun s => String.eqb (src_name s) "store")
           (e_sources (w_env (session_after "optimistic-server")))) /\
    (exists adds acts, post = adds ++ acts /\
       (forall op, In op adds -> op <> Activate) /\
       (forall op, In op acts -> is_add op = false) /\
       (acts <> [] -> forall op, In op (build_adds true "memory-only"
                                         (w_bucket (session_after "optimistic-server")))
                                 -> In op adds)).
Proof.
  split; [vm_compute; discriminate|].
  apply (configure_cleanup_then_build (fun n _ => Nat.ltb n 12) true "memory-only"
           (session_after "optimistic-server")).
  vm_compute; discriminate.
Defined.

Lemma configure_backup_bootstrap_witness :
  w_mode (session_after "pessimistic-server") <> Some "offline-only" /\
  exists w' pre,
    configure all_ok true "offline-only" (session_after "pessimistic-server")
    = (Promise (Some tt), w') /\
    w_trace w' = w_trace (session_after "pessimistic-server") ++ pre ++
      [Activate; PullAllRecords "backup"; SyncStore;
       ClearTransformLog "backup"; ClearTransformLog "store"; Activate] /\
    ~ In Activate pre /\ (forall n, ~ In (PullAllRecords n) pre).
Proof.
  split; [vm_compute; discriminate|].
  apply (configure_backup_bootstrap true "offline-only" (session_after "pessimistic-server")).
  vm_compute; discriminate.
Defined.


Lemma configure_same_mode_is_noop_witness :
  w_mode (session_after "offline-only") = Some "offline-only" /\
  configure all_ok true "offline-only" (session_after "offline-only")
  = (Undefined, session_after "offline-only").
Proof.
  split; [vm_compute; reflexivity|].
  apply (proj1 (configure_same_mode_is_noop all_ok true "offline-only"
                  (session_after "offline-only"))).
  vm_compute; reflexivity.
Defined.

Lemma mode_persisted_and_restored_witness :
  "pessimistic-server" <> "" /\
  w_mode (session_after "memory-only") <> Some "pessimistic-server" /\
  let (r, w') := configure all_ok true "pessimistic-server" (session_after "memory-only") in
  r = Promise (Some tt) ->
  initialize all_ok false (init false (e_storage (w_env w')))
  = configure all_ok false "pessimistic-server" (init false (e_storage (w_env w'))).
Proof.
  split; [discriminate|]. split; [vm_compute; discriminate|].
  apply (proj2 (proj2 mode_persisted_and_restored) all_ok true "pessimistic-server"
           (session_after "memory-only") all_ok false);
    [discriminate | vm_compute; discriminate].
Defined.

Lemma fullName_cases_witness : fullName ada = "Ada Lovelace".
Proof.
  apply (proj1 (fullName_cases ada)); cbn; discriminate.
Defined.

(** ** Further properties of the service *)

Lemma session_inv_init sIDB storage : session_inv sIDB (init sIDB storage).
Proof. repeat split. Qed.

Lemma stored_mode_of e m :
  e_storage e "peeps-mode" = Some m -> m <> "" -> stored_mode e = m.
Proof.
  unfold stored_mode. intros -> Hm.
  destruct (String.eqb_spec m ""); [contradiction | reflexivity].
Qed.

Lemma build_no_remove_source sIDB mode b n :
  ~ In (RemoveSource n) (build_script sIDB mode b).
Proof.
  unfold build_script, build_adds, activation_tail, server_mode, backup_mode.
  destruct (String.eqb mode "pessimistic-server"), (String.eqb mode "optimistic-server"),
    (String.eqb mode "offline-only");
    cbn; intuition discriminate.
Qed.

Lemma clear_remove_source e n :
  In (RemoveSource n) (clear_script e) ->
  n <> "store" /\ exists s, In s (e_sources e) /\ src_name s = n.
Proof.
  unfold clear_script. destruct (e_activated e); [|contradiction].
  intro H. apply in_app_or in H as [H|H]; [destruct H as [H|[]]; discriminate|].
  apply in_app_or in H as [H|H].
  { destruct (get_source "backup" e); cbn in H; intuition discriminate. }
  apply in_app_or in H as [H|H].
  { apply in_flat_map in H as (x & _ & H). cbn in H. intuition discriminate. }
  apply in_flat_map in H as (s & Hs & H). unfold source_cleanup in H.
  destruct H as [H|[H|[H|[H|[]]]]]; try discriminate.
  destruct (String.eqb_spec (src_name s) "store") as [E|E]; [discriminate|].
  injection H as <-. split; [exact E | exists s; split; [exact Hs | reflexivity]].
Qed.

(** X1: from a fresh service, any sequence of mode switches whose calls all
    succeed ends with the sources, the strategies, the activation and the
    stored mode that configuring the last mode directly gives: a switch
    leaves nothing of the earlier modes behind. *)
Theorem mode_switches_leave_no_residue sIDB storage ms mode :
  let w := run_modes sIDB (ms ++ [mode]) (init sIDB storage) in
  let w0 := snd (configure all_ok sIDB mode (init sIDB storage)) in
  w_mode w = Some mode /\ w_mode w0 = Some mode /\
  e_sources (w_env w) = e_sources (w_env w0) /\
  e_strategies (w_env w) = e_strategies (w_env w0) /\
  e_activated (w_env w) = true /\ e_activated (w_env w0) = true /\
  e_storage (w_env w) "peeps-mode" = e_storage (w_env w0) "peeps-mode".
Proof.
  cbn zeta. unfold run_modes. rewrite fold_left_app. cbn [fold_left].
  fold (run_modes sIDB ms (init sIDB storage)).
  pose proof (session_inv_configure sIDB mode _
                (session_inv_run_modes sIDB ms _ (session_inv_init sIDB storage))) as [_ H1].
  pose proof (session_inv_configure sIDB mode _ (session_inv_init sIDB storage)) as [_ H0].
  rewrite configure_sets_mode_all_ok in H0, H1 |- *.
  destruct H1 as (S1 & T1 & A1 & M1), H0 as (S0 & T0 & A0 & M0).
  rewrite S1, S0, T1, T0, A1, A0, M1, M0.
  repeat split; apply configure_sets_mode_all_ok.
Qed.

(** X2: once an [initialize()] whose calls all succeed has run, calling
    [initialize()] again in the same session returns [undefined] and
    changes nothing, whatever the library calls would do. *)
Theorem initialize_again_is_noop sIDB w ok' :
  let w1 := snd (initialize all_ok sIDB w) in
  initialize ok' sIDB w1 = (Undefined, w1).
Proof.
  cbn zeta. unfold initialize.
  set (m := stored_mode (w_env w)).
  destruct (mode_eq_dec (w_mode w) m) as [Hm|Hm].
  - rewrite (configure_same w all_ok sIDB m Hm). cbn [snd].
    fold m. apply configure_same, Hm.
  - pose proof (configure_sets_mode_all_ok sIDB m w) as Hmode.
    destruct (configure_all_ok sIDB m w Hm) as (w' & Hc & _ & He & _).
    rewrite Hc in Hmode |- *. cbn [snd] in Hmode |- *.
    rewrite (stored_mode_of (w_env w') m).
    + apply configure_same, Hmode.
    + rewrite He. apply storage_build.
    + apply stored_mode_nonempty.
Qed.

(** X3: a [configure] to a new mode whose cleanup resolves leaves the
    service in the new mode, even when a later call rejects; such a
    configuration is never redone: [configure] with the same mode then
    returns [undefined] and makes no call.  When the cleanup rejects, the
    promise rejects and the mode is unchanged. *)
Theorem configure_rejection_keeps_mode ok sIDB mode w :
  w_mode w <> Some mode ->
  let (r, w') := configure ok sIDB mode w in
  (fst (clearActiveConfiguration ok w) = Some tt ->
   w_mode w' = Some mode /\ forall ok', configure ok' sIDB mode w' = (Undefined, w')) /\
  (fst (clearActiveConfiguration ok w) = None ->
   r = Promise None /\ w_mode w' = w_mode w).
Proof.
  intro Hm. rewrite (configure_new_mode ok sIDB mode w Hm).
  pose proof (keeps_mode_clear ok w) as Hk. unfold bind.
  destruct (clearActiveConfiguration ok w) as [[[]|] w1];
    cbv beta iota delta [fst snd] in Hk |- *.
  - pose proof (body_sets_mode ok sIDB mode w1) as Hb.
    destruct (configure_body ok sIDB mode w1) as [r w2]. cbn in Hb.
    split; [intros _ | intro; discriminate].
    split; [exact Hb | intros ok'; apply configure_same, Hb].
  - split; [intro; discriminate | intros _; split; [reflexivity | exact Hk]].
Qed.

(** X4: whatever the library calls do, a [configure] to a new mode makes a
    prefix of the calls of the run in which they all succeed, in the same
    order; when its promise resolves it made all of them and leaves the
    coordinator as that run does. *)
Theorem configure_failure_truncates ok sIDB mode w :
  w_mode w <> Some mode ->
  exists r w' w0 new new0,
    configure ok sIDB mode w = (Promise r, w') /\
    configure all_ok sIDB mode w = (Promise (Some tt), w0) /\
    w_trace w' = w_trace w ++ new /\ w_trace w0 = w_trace w ++ new0 /\
    prefix new new0 /\
    w_bucket w' = w_bucket w /\
    (r = Some tt -> new = new0 /\ w_env w' = w_env w0).
Proof.
  intro Hm. destruct (configure_all_ok sIDB mode w Hm) as (w0 & Hc0 & Ht0 & He0 & _).
  pose proof (runs_configure_chain ok sIDB mode w) as Hr.
  rewrite (configure_new_mode ok sIDB mode w Hm).
  unfold runs in Hr.
  destruct ((clearActiveConfiguration ok ;;; configure_body ok sIDB mode) w) as [r w'].
  destruct Hr as [(t & Ht & Hp) [Hb [Hs _]]].
  exists r, w', w0, t, (clear_script (w_env w) ++ build_script sIDB mode (w_bucket w)).
  split; [reflexivity|]. split; [exact Hc0|]. split; [exact Ht|].
  split; [exact Ht0|]. split; [exact Hp|]. split; [exact Hb|].
  intros ->. destruct Hs as [Ht' He']; [discriminate|].
  split.
  - rewrite Ht in Ht'. apply app_inv_head in Ht'. exact Ht'.
  - rewrite He', He0, apply_ops_app. reflexivity.
Qed.

(** X5: [configure] never removes the store: whatever the library calls do,
    every source it removes is a source other than the store that the
    coordinator held when [configure] was called. *)
Theorem configure_never_removes_store ok sIDB mode w :
  let (r, w') := configure ok sIDB mode w in
  exists new, w_trace w' = w_trace w ++ new /\
    forall n, In (RemoveSource n) new ->
      n <> "store" /\ exists s, In s (e_sources (w_env w)) /\ src_name s = n.
Proof.
  destruct (mode_eq_dec (w_mode w) mode) as [Hm|Hm].
  - rewrite (configure_same w ok sIDB mode Hm). exists [].
    split; [symmetry; apply app_nil_r | intros n []].
  - rewrite (configure_new_mode ok sIDB mode w Hm).
    pose proof (runs_configure_chain ok sIDB mode w) as Hr. unfold runs in Hr.
    destruct ((clearActiveConfiguration ok ;;; configure_body ok sIDB mode) w) as [r w'].
    destruct Hr as [(t & Ht & Hp) _]. exists t. split; [exact Ht|].
    intros n Hn. apply (prefix_in _ _ _ Hp), in_app_or in Hn as [Hn|Hn].
    + apply clear_remove_source, Hn.
    + apply build_no_remove_source in Hn as [].
Qed.

(** X6: the [blocking] flags of the strategies a [configure] installs: the
    store-to-backup sync and the listener on the remote's [pushFail] are
    always blocking; the remote-to-store sync and the store's requests to
    the remote are blocking exactly in pessimistic-server mode. *)
Theorem configure_blocking_flags sIDB mode w :
  w_mode w <> Some mode ->
  (e_activated (w_env w) = true \/ e_strategies (w_env w) = []) ->
  exists w', configure all_ok sIDB mode w = (Promise (Some tt), w') /\
    forall s, In s (e_strategies (w_env w')) ->
      match s with
      | SyncStrategy src tgt b =>
          b = if String.eqb tgt "backup" then true
              else String.eqb mode "pessimistic-server"
      | RequestStrategy o =>
          ro_blocking o = if String.eqb (ro_source o) "remote" then true
                          else String.eqb mode "pessimistic-server"
      | _ => True
      end.
Proof.
  intros Hm Hs. destruct (configure_final_strategies sIDB _ w Hm Hs) as (w' & Hc & He).
  exists w'. split; [exact Hc|]. rewrite He. intros s Hin.
  mode_cases mode;
    [| | | rewrite build_script_other in Hin by assumption;
           repeat match goal with
                  | H : mode <> ?m |- _ => rewrite (proj2 (String.eqb_neq mode m) H)
                  end];
    cbn in Hin; repeat destruct Hin as [<-|Hin]; try contradiction; reflexivity.
Qed.

(** X7: [fullName] is never the empty string. *)
Theorem fullName_nonempty c : fullName c <> "".
Proof.
  unfold fullName, truthy, js_string.
  destruct (firstName c) as [f|], (lastName c) as [l|]; cbn;
    try (destruct (String.eqb_spec f "") as [Hf|Hf]);
    try (destruct (String.eqb_spec l "") as [Hl|Hl]); cbn; try discriminate;
    try assumption; destruct f; [contradiction|discriminate].
Qed.

(** X8: [clearActiveConfiguration()] on a coordinator that is not activated
    resolves without a call; on an activated one, once its promise
    resolves, the coordinator is deactivated, holds no strategy and only
    the sources named "store", and the service's mode has not changed. *)
Theorem clearActiveConfiguration_outcome ok w :
  (e_activated (w_env w) = false -> clearActiveConfiguration ok w = (Some tt, w)) /\
  (e_activated (w_env w) = true -> fst (clearActiveConfiguration ok w) = Some tt ->
   let w' := snd (clearActiveConfiguration ok w) in
   e_activated (w_env w') = false /\ e_strategies (w_env w') = [] /\
   e_sources (w_env w') = filter (fun s => String.eqb (src_name s) "store") (e_sources (w_env w)) /\
   w_mode w' = w_mode w).
Proof.
  split.
  - intro Ha. unfold clearActiveConfiguration, bind, get_env. rewrite Ha. reflexivity.
  - intros Ha Hr. pose proof (keeps_mode_clear ok w) as Hk.
    pose proof (runs_clear ok w) as Hrun.
    destruct (clearActiveConfiguration ok w) as [r w'] eqn:E. cbn in Hr, Hk |- *. subst r.
    destruct (runs_success ok _ _ _ _ _ Hrun E) as [_ He]. rewrite He.
    destruct (clear_script_env _ Ha) as (A & S & T).
    split; [exact A|]. split; [exact S|]. split; [exact T|exact Hk].
Qed.

(** X9: a mode none of [configure]'s branches names (memory-only, or any
    other string) still resolves, is stored and activates the coordinator,
    with the store as its only source and only the event-logging and
    log-truncation strategies, after any earlier mode switches. *)
Theorem configure_unmatched_mode sIDB storage ms mode :
  mode <> "pessimistic-server" -> mode <> "optimistic-server" -> mode <> "offline-only" ->
  let w := run_modes sIDB (ms ++ [mode]) (init sIDB storage) in
  w_mode w = Some mode /\ e_sources (w_env w) = [store_source] /\
  e_strategies (w_env w) = [EventLoggingStrategy; LogTruncationStrategy] /\
  e_activated (w_env w) = true /\ e_storage (w_env w) "peeps-mode" = Some mode.
Proof.
  intros H1 H2 H3. cbn zeta. unfold run_modes. rewrite fold_left_app. cbn [fold_left].
  fold (run_modes sIDB ms (init sIDB storage)).
  pose proof (session_inv_configure sIDB mode _
                (session_inv_run_modes sIDB ms _ (session_inv_init sIDB storage))) as [_ H].
  rewrite configure_sets_mode_all_ok in H |- *.
  rewrite build_script_other in H by assumption.
  destruct H as (S & T & A & M). repeat split; assumption.
Qed.

Lemma configure_rejection_keeps_mode_witness :
  w_mode (session_after "memory-only") <> Some "offline-only" /\
  fst (clearActiveConfiguration (fun _ op => match op with Activate => false | _ => true end)
         (session_after "memory-only")) = Some tt /\
  fst (configure (fun _ op => match op with Activate => false | _ => true end) true
         "offline-only" (session_after "memory-only")) = Promise None /\
  (let (r, w') := configure (fun _ op => match op with Activate => false | _ => true end)
                    true "offline-only" (session_after "memory-only") in
   (fst (clearActiveConfiguration (fun _ op => match op with Activate => false | _ => true end)
           (session_after "memory-only")) = Some tt ->
    w_mode w' = Some "offline-only" /\
    forall ok', configure ok' true "offline-only" w' = (Undefined, w')) /\
   (fst (clearActiveConfiguration (fun _ op => match op with Activate => false | _ => true end)
           (session_after "memory-only")) = None ->
    r = Promise None /\ w_mode w' = w_mode (session_after "memory-only"))).
Proof.
  split; [vm_compute; discriminate|]. split; [vm_compute; reflexivity|].
  split; [vm_compute; reflexivity|].
  apply (configure_rejection_keeps_mode
           (fun _ op => match op with Activate => false | _ => true end) true
           "offline-only" (session_after "memory-only")).
  vm_compute; discriminate.
Defined.

Lemma configure_failure_truncates_witness :
  w_mode (session_after "optimistic-server") <> Some "memory-only" /\
  exists r w' w0 new new0,
    configure (fun n _ => Nat.ltb n 12) true "memory-only" (session_after "optimistic-server")
    = (Promise r, w') /\
    configure all_ok true "memory-only" (session_after "optimistic-server")
    = (Promise (Some tt), w0) /\
    w_trace w' = w_trace (session_after "optimistic-server") ++ new /\
    w_trace w0 = w_trace (session_after "optimistic-server") ++ new0 /\
    prefix new new0 /\
    w_bucket w' = w_bucket (session_after "optimistic-server") /\
    (r = Some tt -> new = new0 /\ w_env w' = w_env w0).
Proof.
  split; [vm_compute; discriminate|].
  apply (configure_failure_truncates (fun n _ => Nat.ltb n 12) true "memory-only"
           (session_after "optimistic-server")).
  vm_compute; discriminate.
Defined.

Lemma configure_blocking_flags_witness :
  w_mode (session_after "memory-only") <> Some "optimistic-server" /\
  exists w', configure all_ok false "optimistic-server" (session_after "memory-only")
             = (Promise (Some tt), w') /\
    forall s, In s (e_strategies (w_env w')) ->
      match s with
      | SyncStrategy src tgt b =>
          b = if String.eqb tgt "backup" then true
              else String.eqb "optimistic-server" "pessimistic-server"
      | RequestStrategy o =>
          ro_blocking o = if String.eqb (ro_source o) "remote" then true
                          else String.eqb "optimistic-server" "pessimistic-server"
      | _ => True
      end.
Proof.
  split; [vm_compute; discriminate|].
  apply (configure_blocking_flags false "optimistic-server" (session_after "memory-only"));
    [vm_compute; discriminate | left; vm_compute; reflexivity].
Defined.

Lemma clearActiveConfiguration_outcome_witness :
  e_activated (w_env (session_after "offline-only")) = true /\
  fst (clearActiveConfiguration all_ok (session_after "offline-only")) = Some tt /\
  e_sources (w_env (snd (clearActiveConfiguration all_ok (session_after "offline-only"))))
  = [store_source].
Proof.
  split; [vm_compute; reflexivity|]. split; [vm_compute; reflexivity|].
  destruct (proj2 (clearActiveConfiguration_outcome all_ok (session_after "offline-only"))
              ltac:(vm_compute; reflexivity) ltac:(vm_compute; reflexivity))
    as (_ & _ & S & _).
  rewrite S. vm_compute. reflexivity.
Defined.

Lemma configure_unmatched_mode_witness :
  let w := run_modes false (["optimistic-server"; "pessimistic-server"] ++ ["bogus"])
             (init false (fun _ => None)) in
  w_mode w = Some "bogus" /\ e_sources (w_env w) = [store_source] /\
  e_strategies (w_env w) = [EventLoggingStrategy; LogTruncationStrategy] /\
  e_activated (w_env w) = true /\ e_storage (w_env w) "peeps-mode" = Some "bogus".
Proof.
  apply (configure_unmatched_mode false (fun _ => None)
           ["optimistic-server"; "pessimistic-server"] "bogus"); discriminate.
Defined.
